(** * bluestar-scraper: the spreadsheet writer and the field extractor

    A shallow embedding of [tests/bluestar_all.spec.ts] and
    [tests/bluestar.spec.ts]: the label-based field extractor
    ([extractProductDetails]), the credential check of [loginIfNeeded],
    and the two Excel writers ([writeExcel] of bluestar_all.spec.ts and
    the inline writer of bluestar.spec.ts).

    Conventions of the embedding:
    - a JavaScript string is a [string]; each [ascii] stands for the UTF-16
      code unit of the same number, so the texts of the model are the
      JavaScript strings whose code units are below 256;
    - a JavaScript number is a binary64 value, Rocq's [spec_float] at
      precision 53 and maximal exponent 1024;
    - [string | null] is [option string];
    - a JavaScript array with holes is a list of slots;
    - the cells of a worksheet row and the rows of a worksheet are finite
      maps from the (1-based) column and row number. *)

From Stdlib Require Import ZArith Floats.SpecFloat Ascii String.
From stdpp Require Import gmap strings list fin_maps pretty.

Local Open Scope string_scope.

(** ** JavaScript strings and numbers *)

Module JS.

(** A binary64 number. *)
Definition number := spec_float.

Definition prec : Z := 53.
Definition emax : Z := 1024.

Definition NaN : number := S754_nan.

(** [Number.isFinite(n)] for a number [n]. *)
Definition isFinite (n : number) : bool :=
  match n with
  | S754_zero _ | S754_finite _ _ _ => true
  | S754_infinity _ | S754_nan => false
  end.

(** [Number.isNaN(n)] for a number [n]. *)
Definition isNaN (n : number) : bool :=
  match n with
  | S754_nan => true
  | _ => false
  end.

Definition code (c : ascii) : nat := nat_of_ascii c.

(** The class [0-9] (also [\d]). *)
Definition is_digit (c : ascii) : bool :=
  (48 <=? code c)%nat && (code c <=? 57)%nat.

(** [\w]: the class [A-Za-z0-9_]. *)
Definition is_word (c : ascii) : bool :=
  is_digit c
  || ((65 <=? code c)%nat && (code c <=? 90)%nat)
  || ((97 <=? code c)%nat && (code c <=? 122)%nat)
  || (code c =? 95)%nat.

(** [\s], which is also what [trim] removes: the white space and line
    terminator code units. Below 256 these are TAB, LF, VT, FF, CR, SP
    and NBSP. *)
Definition is_space (c : ascii) : bool :=
  ((9 <=? code c)%nat && (code c <=? 13)%nat)
  || (code c =? 32)%nat
  || (code c =? 160)%nat.

(** The canonical form of a code unit under the [i] flag (without the
    [u] flag): its upper case when that is a single code unit, except
    that a code unit from 128 on is never mapped below 128. Only the
    letters a-z change below 128; from 128 on the model keeps the code
    unit, which never equals the canonical form of an ASCII letter. *)
Definition canonicalize (c : ascii) : ascii :=
  if (97 <=? code c)%nat && (code c <=? 122)%nat
  then ascii_of_nat (code c - 32)
  else c.

Fixpoint filter_chars (p : ascii -> bool) (s : string) : string :=
  match s with
  | EmptyString => EmptyString
  | String c s' =>
      if p c then String c (filter_chars p s') else filter_chars p s'
  end.

Fixpoint all_chars (p : ascii -> bool) (s : string) : bool :=
  match s with
  | EmptyString => true
  | String c s' => p c && all_chars p s'
  end.

(** Longest prefix of [s] made of characters in [p], and the rest. *)
Fixpoint span (p : ascii -> bool) (s : string) : string * string :=
  match s with
  | EmptyString => (EmptyString, EmptyString)
  | String c s' =>
      if p c then let '(a, b) := span p s' in (String c a, b)
      else (EmptyString, s)
  end.

Fixpoint trimStart (s : string) : string :=
  match s with
  | EmptyString => EmptyString
  | String c s' => if is_space c then trimStart s' else s
  end.

(** [trimEnd]: a character is dropped when everything from it on is
    white space. *)
Fixpoint trimEnd (s : string) : string :=
  match s with
  | EmptyString => EmptyString
  | String c s' =>
      match trimEnd s' with
      | EmptyString => if is_space c then EmptyString else String c EmptyString
      | t => String c t
      end
  end.

(** [s.trim()]. *)
Definition trim (s : string) : string := trimEnd (trimStart s).

(** Truthiness of a string: the empty string is falsy. *)
Definition truthy (s : string) : bool :=
  match s with
  | EmptyString => false
  | _ => true
  end.

Definition digit_value (c : ascii) : Z := Z.of_nat (code c) - 48.

(** The mathematical value of a string of decimal digits. *)
Fixpoint digits_value_from (acc : Z) (s : string) : Z :=
  match s with
  | EmptyString => acc
  | String c s' => digits_value_from (10 * acc + digit_value c) s'
  end.

Definition digits_value (s : string) : Z := digits_value_from 0 s.

(** The number value of the decimal [m / 10^k], [m >= 0], with sign
    [neg]: the binary64 nearest to it, ties to even, an infinity when
    it is out of range, and a signed zero when [m] is zero. *)
Definition of_decimal (neg : bool) (m : Z) (k : nat) : number :=
  match m with
  | Zpos p =>
      SFdiv prec emax (S754_finite neg p 0)
        (S754_finite false (Z.to_pos (10 ^ Z.of_nat k)) 0)
  | _ => S754_zero neg
  end.

(** An unsigned decimal literal without exponent:
    digits, digits [.] digits-or-nothing, or [.] digits. *)
Definition unsigned_decimal (neg : bool) (s : string) : number :=
  let '(ip, rest) := span is_digit s in
  match rest with
  | EmptyString =>
      if truthy ip then of_decimal neg (digits_value ip) 0 else NaN
  | String "." fp =>
      if all_chars is_digit fp && (truthy ip || truthy fp)
      then of_decimal neg (digits_value (ip ++ fp)) (String.length fp)
      else NaN
  | _ => NaN
  end.

(** [Number(s)] for a string [s] made of the characters [0-9], [.], [-]
    and [+] only, which is all the program ever passes to it (see
    [filter_chars]): the empty string is [+0], an optionally signed
    decimal literal is its value, everything else is [NaN]. White
    space, exponents, [Infinity] and the [0x], [0o], [0b] literals need
    characters outside that alphabet and are not part of this
    definition. *)
Definition Number (s : string) : number :=
  match s with
  | EmptyString => S754_zero false
  | String "-" s' => unsigned_decimal true s'
  | String "+" s' => unsigned_decimal false s'
  | _ => unsigned_decimal false s
  end.

(** [Number.parseInt(s, 10)]: leading white space is skipped, one sign
    is read, then the longest run of decimal digits; no digit at all
    gives [NaN]. *)
Definition parseInt10 (s : string) : number :=
  let t := trimStart s in
  let '(neg, body) :=
    match t with
    | String "-" r => (true, r)
    | String "+" r => (false, r)
    | _ => (false, t)
    end in
  let '(ds, _) := span is_digit body in
  if truthy ds then of_decimal neg (digits_value ds) 0 else NaN.

End JS.


(** ** Regular expressions

    The regular expressions of the source use a small fragment: character
    classes, literals, a class under a greedy or lazy quantifier, an
    optional class, [\b], [$] (no [m] flag: end of input only), one
    capture group and concatenation. The matcher is the backtracking
    matcher of the language: a quantifier tries its alternatives in
    priority order and the continuation decides. *)

Module Regex.

Inductive regex :=
| Class (p : ascii -> bool)
| Literal (s : string)
| Repeat (greedy : bool) (min : nat) (p : ascii -> bool)
| Optional (p : ascii -> bool)
| WordBoundary
| EndOfInput
| Group (r : regex)
| Seq (r1 r2 : regex).

(** A position in the input: the character before it, if any, and the
    input from it on. The capture of group 1 is threaded along. *)
Definition outcome : Type := string * option string.
Definition cont : Type := option ascii -> string -> option string -> option outcome.

Definition char_eq (ignoreCase : bool) (a b : ascii) : bool :=
  if ignoreCase
  then Ascii.eqb (JS.canonicalize a) (JS.canonicalize b)
  else Ascii.eqb a b.

Fixpoint literal (ignoreCase : bool) (s : string) (k : cont)
    (prev : option ascii) (rest : string) (cap : option string) : option outcome :=
  match s with
  | EmptyString => k prev rest cap
  | String a s' =>
      match rest with
      | String c rest' =>
          if char_eq ignoreCase a c
          then literal ignoreCase s' k (Some c) rest' cap
          else None
      | EmptyString => None
      end
  end.

(** [p*], [p+] (greedy) and [p*?] (lazy) with at least [min] more
    characters to take. *)
Fixpoint repeat_class (greedy : bool) (p : ascii -> bool) (k : cont) (min : nat)
    (prev : option ascii) (rest : string) (cap : option string) : option outcome :=
  let more :=
    match rest with
    | String c rest' =>
        if p c then repeat_class greedy p k (Nat.pred min) (Some c) rest' cap else None
    | EmptyString => None
    end in
  match min with
  | S _ => more
  | O =>
      if greedy
      then match more with
           | Some o => Some o
           | None => k prev rest cap
           end
      else match k prev rest cap with
           | Some o => Some o
           | None => more
           end
  end.

Definition is_word_before (prev : option ascii) : bool :=
  match prev with
  | Some c => JS.is_word c
  | None => false
  end.

Definition is_word_after (rest : string) : bool :=
  match rest with
  | String c _ => JS.is_word c
  | EmptyString => false
  end.

(** The characters consumed between two positions. *)
Definition consumed (from to : string) : string :=
  substring 0 (String.length from - String.length to) from.

Fixpoint run (ignoreCase : bool) (r : regex) (k : cont)
    (prev : option ascii) (rest : string) (cap : option string) : option outcome :=
  match r with
  | Class p =>
      match rest with
      | String c rest' => if p c then k (Some c) rest' cap else None
      | EmptyString => None
      end
  | Literal s => literal ignoreCase s k prev rest cap
  | Repeat greedy min p => repeat_class greedy p k min prev rest cap
  | Optional p =>
      match rest with
      | String c rest' =>
          if p c
          then match k (Some c) rest' cap with
               | Some o => Some o
               | None => k prev rest cap
               end
          else k prev rest cap
      | EmptyString => k prev rest cap
      end
  | WordBoundary =>
      if xorb (is_word_before prev) (is_word_after rest)
      then k prev rest cap
      else None
  | EndOfInput =>
      match rest with
      | EmptyString => k prev rest cap
      | String _ _ => None
      end
  | Group r' =>
      run ignoreCase r'
        (fun prev' rest' _ => k prev' rest' (Some (consumed rest rest')))
        prev rest cap
  | Seq r1 r2 => run ignoreCase r1 (run ignoreCase r2 k) prev rest cap
  end.

(** The result of [text.match(re)] without the [g] flag: element 0
    (the matched text) and element 1 (group 1, if it took part). *)
Record match_result := { whole : string; group1 : option string }.

Definition accept : cont := fun _ rest cap => Some (rest, cap).

(** The leftmost position at which the expression matches wins. *)
Fixpoint search (ignoreCase : bool) (r : regex)
    (prev : option ascii) (rest : string) : option match_result :=
  match run ignoreCase r accept prev rest None with
  | Some (rest', cap) => Some {| whole := consumed rest rest'; group1 := cap |}
  | None =>
      match rest with
      | String c rest' => search ignoreCase r (Some c) rest'
      | EmptyString => None
      end
  end.

Definition match_ (ignoreCase : bool) (r : regex) (text : string) : option match_result :=
  search ignoreCase r None text.

End Regex.

(** ** The scraped record and the field extractor *)

(** [type ProductRecord]. *)
Record ProductRecord := {
  productUrl : string;
  productName : option string;
  sku : option string;
  mpn : option string;
  manufacturer : option string;
  price : option string;
  stock : option string;
  description : option string
}.

(** [a || b] on [string | null] operands. *)
Definition or_else (a b : option string) : option string :=
  match a with
  | Some s => if JS.truthy s then a else b
  | None => b
  end.

Module Extract.

Import Regex.

Definition newline : ascii := ascii_of_nat 10.

(** [[^\n]] *)
Definition not_newline (c : ascii) : bool := negb (Ascii.eqb c newline).

(** [[:#-]] *)
Definition is_separator (c : ascii) : bool :=
  Ascii.eqb c ":" || Ascii.eqb c "#" || Ascii.eqb c "-".

(** [[\s\S]] *)
Definition any_char (c : ascii) : bool := JS.is_space c || negb (JS.is_space c).

(** [[\d,.]] *)
Definition is_price_char (c : ascii) : bool :=
  JS.is_digit c || Ascii.eqb c "," || Ascii.eqb c ".".

(** [\s*[:#-]?\s*], the part between a label and its value. *)
Definition after_label (value : regex) : regex :=
  Seq (Repeat true 0 JS.is_space)
    (Seq (Optional is_separator)
       (Seq (Repeat true 0 JS.is_space) value)).

(** [/\bLABEL\s*[:#-]?\s*([^\n]+)/i] *)
Definition label_regex (label : string) : regex :=
  Seq WordBoundary
    (Seq (Literal label) (after_label (Group (Repeat true 1 not_newline)))).

(** [/\bDescription\s*[:#-]?\s*([^\n][\s\S]*?)$/i] *)
Definition description_regex : regex :=
  Seq WordBoundary
    (Seq (Literal "Description")
       (after_label
          (Seq (Group (Seq (Class not_newline) (Repeat false 0 any_char)))
             EndOfInput))).

(** [/\$[\d,.]+/] *)
Definition price_regex : regex :=
  Seq (Class (Ascii.eqb "$")) (Repeat true 1 is_price_char).

(** The closure [matchAfter] of [extractProductDetails], with the text
    it closes over as a parameter; every label expression has the [i]
    flag. *)
Definition matchAfter (detailsText : string) (labelRegex : regex) : option string :=
  match match_ true labelRegex detailsText with
  | None => None
  | Some m =>
      match group1 m with
      | None => None
      | Some g => let t := JS.trim g in if JS.truthy t then Some t else None
      end
  end.

(** What the page driver hands to [extractProductDetails]. A call of
    the driver that rejects is [None]: each of them has a [catch]. *)
Record page_view := {
  page_url : string;
  h1_textContent : option string;
  details_innerText : option string;
  body_innerText : option string
}.

Definition detailsText_of (pg : page_view) : string :=
  let d := default "" (details_innerText pg) in
  if JS.truthy d then d else default "" (body_innerText pg).

Definition extractProductDetails (pg : page_view) : ProductRecord :=
  let productName :=
    match h1_textContent pg with
    | Some t => or_else (Some (JS.trim t)) None
    | None => None
    end in
  let detailsText := detailsText_of pg in
  let sku :=
    or_else (matchAfter detailsText (label_regex "SKU"))
      (or_else (matchAfter detailsText (label_regex "Item")) None) in
  let mpn := or_else (matchAfter detailsText (label_regex "MPN")) None in
  let manufacturer :=
    or_else (matchAfter detailsText (label_regex "MANUFACTURER")) None in
  let description := or_else (matchAfter detailsText description_regex) None in
  let price :=
    match match_ false price_regex detailsText with
    | Some m => Some (whole m)
    | None => None
    end in
  let stock := or_else (matchAfter detailsText (label_regex "Current Stock")) None in
  {| productUrl := page_url pg; productName := productName; sku := sku;
     mpn := mpn; manufacturer := manufacturer; price := price;
     stock := stock; description := description |}.

End Extract.

(** ** The spreadsheet library

    ExcelJS is a dependency of the repository, not one of its source
    files. This module is the part of it the writers call, as the
    library implements it (exceljs 4, lib/doc/worksheet.js, row.js and
    column.js): [Worksheet.rowCount], [getRow], [addRow], the [columns]
    setter, [Row.values] (getter and setter) and the [numFmt] setter of a
    column. Row and column numbers start at 1. *)

Module ExcelJS.

(** A cell value. [Other] stands for the values without a [richText]
    property that are neither strings nor numbers (dates, booleans,
    formulas, hyperlinks, errors). *)
Inductive value :=
| Null
| Text (s : string)
| Num (n : JS.number)
| RichText (parts : list string)
| Other.

#[global] Instance spec_float_eq_dec : EqDecision spec_float.
Proof. solve_decision. Defined.

#[global] Instance value_eq_dec : EqDecision value.
Proof. solve_decision. Defined.

(** A slot of a JavaScript array of cell values: a hole, an element
    that is [undefined], or an element with a value. *)
Inductive slot :=
| Hole
| Undefined
| Elem (v : value).

(** A worksheet in memory: the cells of its rows, and the column keys
    in the order they were set. *)
Record worksheet := {
  rows : gmap nat (gmap nat value);
  keys : list (string * nat)
}.

(** The largest number in use, 0 when there is none. *)
Definition last_number {A} (m : gmap nat A) : nat :=
  max_list (elements (dom m)).

(** [sheet.rowCount]: the number of the last row. *)
Definition rowCount (ws : worksheet) : nat := last_number (rows ws).

(** [sheet.getRow(n)] creates the row when it does not exist. *)
Definition getRow (n : nat) (ws : worksheet) : worksheet :=
  match rows ws !! n with
  | Some _ => ws
  | None => {| rows := <[n := ∅]> (rows ws); keys := keys ws |}
  end.

Definition cells (n : nat) (ws : worksheet) : gmap nat value :=
  default ∅ (rows ws !! n).

Definition non_null (v : value) : option value :=
  match v with
  | Null => None
  | _ => Some v
  end.

(** The [values] getter of a row: a sparse array with the value of
    each cell that is not null at the index of its column. *)
Definition row_values (cs : gmap nat value) : list slot :=
  let shown := omap non_null cs in
  if decide (shown = ∅) then []
  else (fun i => match shown !! i with
                 | Some v => Elem v
                 | None => Hole
                 end) <$> seq 0 (S (last_number shown)).

(** [value.hasOwnProperty('0')] *)
Definition owns_index_0 (arr : list slot) : bool :=
  match arr with
  | [] | Hole :: _ => false
  | _ => true
  end.

Fixpoint fill_cells (col : nat) (arr : list slot) (cs : gmap nat value)
    : gmap nat value :=
  match arr with
  | [] => cs
  | s :: arr' =>
      fill_cells (S col) arr'
        (match s with
         | Elem v => <[col := v]> cs
         | _ => cs
         end)
  end.

(** The [values] setter of a row, for an array: prior cells are
    removed; an array that owns index 0 is contiguous and starts at
    column 1, otherwise index [i] is column [i]; elements that are
    [undefined] are skipped, as are holes. *)
Definition cells_of_array (arr : list slot) : gmap nat value :=
  fill_cells (if owns_index_0 arr then 1 else 0) arr ∅.

(** Property lookup in an object literal. *)
Fixpoint prop (key : string) (obj : list (string * value)) : option value :=
  match obj with
  | [] => None
  | (k, v) :: obj' => if String.eqb k key then Some v else prop key obj'
  end.

(** The [values] setter of a row, for an object: each column key that
    the object defines sets the cell of its column. *)
Definition cells_of_object (ks : list (string * nat)) (obj : list (string * value))
    : gmap nat value :=
  foldl (fun cs '(key, col) =>
           match prop key obj with
           | Some v => <[col := v]> cs
           | None => cs
           end) ∅ ks.

Definition set_row (n : nat) (cs : gmap nat value) (ws : worksheet) : worksheet :=
  {| rows := <[n := cs]> (rows ws); keys := keys ws |}.

(** [sheet.addRow(values)]: the row after the last one. *)
Definition addRow_array (arr : list slot) (ws : worksheet) : worksheet :=
  set_row (rowCount ws + 1) (cells_of_array arr) ws.

Definition addRow_object (obj : list (string * value)) (ws : worksheet) : worksheet :=
  set_row (rowCount ws + 1) (cells_of_object (keys ws) obj) ws.

Definition set_cell (r c : nat) (v : value) (ws : worksheet) : worksheet :=
  set_row r (<[c := v]> (cells r ws)) ws.

Fixpoint set_key (key : string) (col : nat) (ks : list (string * nat))
    : list (string * nat) :=
  match ks with
  | [] => [(key, col)]
  | (k, c) :: ks' =>
      if String.eqb k key then (k, col) :: ks' else (k, c) :: set_key key col ks'
  end.

(** A column definition [{ header, key, width }]; the width does not
    reach the cells. *)
Record column_def := { header : string; key : string }.

Fixpoint set_columns_from (n : nat) (defs : list column_def) (ws : worksheet)
    : worksheet :=
  match defs with
  | [] => ws
  | d :: defs' =>
      let ws1 := {| rows := rows ws; keys := set_key (key d) n (keys ws) |} in
      set_columns_from (S n) defs' (set_cell 1 n (Text (header d)) ws1)
  end.

(** [sheet.columns = defs]: column [n] gets the key of the [n]-th
    definition, and its header is written to the cell of row 1. *)
Definition set_columns (defs : list column_def) (ws : worksheet) : worksheet :=
  set_columns_from 1 defs ws.

(** [row.hasValues]: some cell of the row is not null. *)
Definition hasValues (cs : gmap nat value) : bool :=
  bool_decide (omap non_null cs <> ∅).

(** [row.getCell(c)] creates the cell, null, when the row has none in
    column [c]. *)
Definition getCell (c : nat) (cs : gmap nat value) : gmap nat value :=
  match cs !! c with
  | Some _ => cs
  | None => <[c := Null]> cs
  end.

(** [sheet.getColumn(c).numFmt = fmt]: the format is a style; the
    library sets it on the cell of column [c] in each row that has
    values, through [getCell]. No value changes; a row without a cell in
    that column gets a null one. *)
Definition set_numFmt (c : nat) (ws : worksheet) : worksheet :=
  {| rows := (fun cs => if hasValues cs then getCell c cs else cs) <$> rows ws;
     keys := keys ws |}.

(** The column of a key, [None] when no column has it. *)
Fixpoint key_column (key : string) (ks : list (string * nat)) : option nat :=
  match ks with
  | [] => None
  | (k, c) :: ks' => if String.eqb k key then Some c else key_column key ks'
  end.

End ExcelJS.

(** ** The two Excel writers *)

Module Writer.

Import ExcelJS.

(** The workbook file before a run: [None] when there is no file or it
    cannot be read (the [catch] of the writers), otherwise the rows of
    the sheet the writers pick, [getWorksheet('Products') ||
    worksheets[0]]. A workbook without any sheet reads as an empty one. *)
Definition open_sheet (file : option (gmap nat (gmap nat value))) : worksheet :=
  {| rows := default ∅ file; keys := [] |}.

Definition defaultHeaders : list string :=
  ["DATE"; "TIME"; "Item Name"; "SKU"; "DESCRIPTION"; "MPN";
   "MANUFACTURER"; "PRICE"; "STOCK"; "PRODUCT URL"].

Definition columnDefs : list column_def :=
  [ {| header := "DATE"; key := "runDate" |};
    {| header := "TIME"; key := "runTime" |};
    {| header := "Item Name"; key := "productName" |};
    {| header := "SKU"; key := "sku" |};
    {| header := "DESCRIPTION"; key := "description" |};
    {| header := "MPN"; key := "mpn" |};
    {| header := "MANUFACTURER"; key := "manufacturer" |};
    {| header := "PRICE"; key := "price" |};
    {| header := "STOCK"; key := "stock" |};
    {| header := "PRODUCT URL"; key := "productUrl" |} ].

(** [[^0-9.\-]] is removed: these stay. *)
Definition is_price_digit (c : ascii) : bool :=
  JS.is_digit c || Ascii.eqb c "." || Ascii.eqb c "-".

(** [[^0-9\-]] is removed: these stay. *)
Definition is_stock_digit (c : ascii) : bool :=
  JS.is_digit c || Ascii.eqb c "-".

(** [parsePriceToNumber] (and [parsePrice] of bluestar.spec.ts, which
    is the same function). *)
Definition parsePriceToNumber (p : option string) : option JS.number :=
  match p with
  | None => None
  | Some p =>
      if negb (JS.truthy p) then None
      else
        let n := JS.Number (JS.filter_chars is_price_digit p) in
        if JS.isFinite n then Some n else None
  end.

(** [parseStockToNumber] (and [parseStock] of bluestar.spec.ts). *)
Definition parseStockToNumber (s : option string) : option JS.number :=
  match s with
  | None => None
  | Some s =>
      if negb (JS.truthy s) then None
      else
        let cleaned := JS.filter_chars is_stock_digit s in
        if negb (JS.truthy cleaned) then None
        else
          let n := JS.parseInt10 cleaned in
          if JS.isNaN n then None else Some n
  end.

(** [field ?? null] *)
Definition or_null (field : option string) : value :=
  match field with
  | Some s => Text s
  | None => Null
  end.

(** [number ?? field ?? null] *)
Definition number_or (n : option JS.number) (field : option string) : value :=
  match n with
  | Some n => Num n
  | None => or_null field
  end.

Definition price_cell (p : option string) : value :=
  number_or (parsePriceToNumber p) p.

Definition stock_cell (s : option string) : value :=
  number_or (parseStockToNumber s) s.

(** The text of a header cell, as the [map] callback of [writeExcel]
    computes it; a hole stays a hole. *)
Definition header_text (s : slot) : option string :=
  match s with
  | Hole => None
  | Elem (Text t) => Some t
  | Elem (RichText parts) => Some (String.concat "" parts)
  | _ => Some ""
  end.

(** [headers.includes(name)] *)
Definition includes (name : string) (headers : list (option string)) : bool :=
  existsb (fun h => match h with
                    | Some t => String.eqb t name
                    | None => false
                    end) headers.

(** An element of [[undefined, ...headers]]: spreading turns a hole
    into [undefined]. *)
Definition spread (h : option string) : slot :=
  match h with
  | Some t => Elem (Text t)
  | None => Undefined
  end.

(** [headerIndex]: header text to 1-based column, a later header of
    the same text replacing an earlier one. *)
Fixpoint index_headers (idx : nat) (headers : list (option string))
    (headerIndex : gmap string nat) : gmap string nat :=
  match headers with
  | [] => headerIndex
  | h :: headers' =>
      index_headers (S idx) headers'
        (match h with
         | Some t => <[t := idx + 1]> headerIndex
         | None => headerIndex
         end)
  end.

(** [arr[i] = v], where [i] is [undefined] when the header is not a
    property of [headerIndex]: the assignment then sets no index.
    An index past the end extends the array with holes. *)
Definition array_set (i : option nat) (v : value) (arr : list slot) : list slot :=
  match i with
  | None => arr
  | Some n =>
      if (n <? length arr)%nat then <[n := Elem v]> arr
      else (arr ++ replicate (n - length arr) Hole ++ [Elem v])%list
  end.

(** The schema step of [writeExcel]: the headers the rows are placed
    by, and the sheet with its header row in place. *)
Definition reconcile (ws : worksheet) : list (option string) * worksheet :=
  if (rowCount ws =? 0)%nat then
    (Some <$> defaultHeaders, set_columns columnDefs ws)
  else
    let ws1 := getRow 1 ws in
    let headers : list (option string) :=
      header_text <$> drop 1 (row_values (cells 1 ws1)) in
    if includes "MANUFACTURER" headers then (headers, ws1)
    else
      let headers' := (headers ++ [Some "MANUFACTURER"])%list in
      (headers', set_row 1 (cells_of_array (Undefined :: (spread <$> headers'))) ws1).

(** The body of the loop of [writeExcel]: the sparse array of one
    record. *)
Definition rowValues (headerIndex : gmap string nat) (runDate runTime : string)
    (rec : ProductRecord) : list slot :=
  let a0 := [] in
  let a1 := array_set (headerIndex !! "DATE") (Text runDate) a0 in
  let a2 := array_set (headerIndex !! "TIME") (Text runTime) a1 in
  let a3 := array_set (headerIndex !! "Item Name") (or_null (productName rec)) a2 in
  let a4 := array_set (headerIndex !! "SKU") (or_null (sku rec)) a3 in
  let a5 := array_set (headerIndex !! "DESCRIPTION") (or_null (description rec)) a4 in
  let a6 := array_set (headerIndex !! "MPN") (or_null (mpn rec)) a5 in
  let a7 :=
    match headerIndex !! "MANUFACTURER" with
    | Some (S _) =>
        array_set (headerIndex !! "MANUFACTURER") (or_null (manufacturer rec)) a6
    | _ => a6
    end in
  let a8 := array_set (headerIndex !! "PRICE") (price_cell (price rec)) a7 in
  let a9 := array_set (headerIndex !! "STOCK") (stock_cell (stock rec)) a8 in
  array_set (headerIndex !! "PRODUCT URL") (Text (productUrl rec)) a9.

(** [if (priceColIdx) sheet.getColumn(priceColIdx).numFmt = ...] *)
Definition format_price (headerIndex : gmap string nat) (ws : worksheet) : worksheet :=
  match headerIndex !! "PRICE" with
  | Some (S c) => set_numFmt (S c) ws
  | _ => ws
  end.

(** [writeExcel] of bluestar_all.spec.ts; [runDate] and [runTime] are
    the two strings formatted from [new Date()]. The result is the
    sheet handed to [workbook.xlsx.writeFile]. *)
Definition writeExcel (file : option (gmap nat (gmap nat value)))
    (records : list ProductRecord) (runDate runTime : string) : worksheet :=
  let '(headers, ws) := reconcile (open_sheet file) in
  let headerIndex := index_headers 0 headers ∅ in
  foldl (fun ws rec => addRow_array (rowValues headerIndex runDate runTime rec) ws)
    (format_price headerIndex ws) records.

(** The header step of the inline writer of bluestar.spec.ts. *)
Definition enforce_header (ws : worksheet) : worksheet :=
  if (rowCount ws =? 0)%nat then set_columns columnDefs ws
  else
    let ws1 := getRow 1 ws in
    let ws2 :=
      set_row 1 (cells_of_array (Undefined :: ((fun h => Elem (Text h)) <$> defaultHeaders))) ws1 in
    set_columns columnDefs ws2.

(** The object literal the inline writer passes to [addRow]. *)
Definition rowObject (runDate runTime : string) (rec : ProductRecord)
    : list (string * value) :=
  [ ("runDate", Text runDate);
    ("runTime", Text runTime);
    ("productName", or_null (productName rec));
    ("sku", or_null (sku rec));
    ("description", or_null (description rec));
    ("mpn", or_null (mpn rec));
    ("manufacturer", or_null (manufacturer rec));
    ("price", price_cell (price rec));
    ("stock", stock_cell (stock rec));
    ("productUrl", Text (productUrl rec)) ].

(** [try { sheet.getColumn('price').numFmt = ... } catch {}]: the column
    of the key [price], which the header step has just set. *)
Definition format_price_key (ws : worksheet) : worksheet :=
  match key_column "price" (keys ws) with
  | Some c => set_numFmt c ws
  | None => ws
  end.

(** The inline writer of bluestar.spec.ts. *)
Definition writeExcel_inline (file : option (gmap nat (gmap nat value)))
    (records : list ProductRecord) (runDate runTime : string) : worksheet :=
  foldl (fun ws rec => addRow_object (rowObject runDate runTime rec) ws)
    (format_price_key (enforce_header (open_sheet file))) records.

End Writer.


(** ** The credential check of [loginIfNeeded]

    The calls on the page driver are recorded in a trace. A call may
    reject; the rejection propagates unless the source catches it. *)

Module Login.

Inductive action :=
| Goto (url : string)
| Click (target : string)
| Fill (target text : string)
| AwaitLoggedIn
| WaitForLoadState.

Inductive error :=
| ConfigError (message : string)
| DriverError (a : action).

(** A computation over the trace of driver calls made so far. *)
Definition script (A : Type) : Type := list action -> (error + A) * list action.

Definition ret {A} (x : A) : script A := fun tr => (inr x, tr).

Definition throw {A} (e : error) : script A := fun tr => (inl e, tr).

Definition bind {A B} (m : script A) (f : A -> script B) : script B :=
  fun tr =>
    match m tr with
    | (inl e, tr') => (inl e, tr')
    | (inr x, tr') => f x tr'
    end.

(** [m.catch(() => undefined)] *)
Definition caught (m : script unit) : script unit :=
  fun tr =>
    match m tr with
    | (_, tr') => (inr tt, tr')
    end.

#[local] Instance script_ret : MRet script := @ret.
#[local] Instance script_bind : MBind script := fun A B f m => bind m f.

Definition LOGIN_URL : string :=
  "https://www.medstatsupplies.com/scs/checkout.ssp?is=login&login=T&fragment=login-register#login-register".

Definition missing_credentials_message : string :=
  "Please set MEDSTAT_EMAIL and MEDSTAT_PASSWORD in your .env file.".

Section Driver.

(** Whether a call on the page driver resolves. *)
Variable resolves : action -> bool.

Definition call (a : action) : script unit :=
  fun tr =>
    if resolves a then (inr tt, (tr ++ [a])%list)
    else (inl (DriverError a), (tr ++ [a])%list).

(** [process.env.NAME || ''] *)
Definition env_or_empty (env : gmap string string) (name : string) : string :=
  match env !! name with
  | Some v => if JS.truthy v then v else ""
  | None => ""
  end.

Definition loginIfNeeded (env : gmap string string) : script unit :=
  let email := env_or_empty env "MEDSTAT_EMAIL" in
  let password := env_or_empty env "MEDSTAT_PASSWORD" in
  if negb (JS.truthy email) || negb (JS.truthy password)
  then throw (ConfigError missing_credentials_message)
  else
    call (Goto LOGIN_URL) ;;
    call (Click "Email Address") ;;
    call (Fill "Email Address" email) ;;
    call (Click "Password") ;;
    call (Fill "Password" password) ;;
    call (Click "Log In") ;;
    caught (call AwaitLoggedIn) ;;
    call WaitForLoadState.

(** The body of a test: [ensureOutputDir], which creates the output
    directory and makes no call on the page, then [loginIfNeeded], then
    the scraping. *)
Variable ensureOutputDir : script unit.
Variable scrape : script unit.

Definition test_body (env : gmap string string) : script unit :=
  ensureOutputDir ;; loginIfNeeded env ;; scrape.

End Driver.

End Login.


(** ** Collecting product URLs and the two tests

    The calls on the page are taken by their answers: what a query of
    the page returns, or that it rejects. The calls on the file system
    ([ensureOutputDir], [saveJson], the reading and writing of the
    workbook) are taken to resolve. *)

Module Scrape.

Import Regex.

Definition SEARCH_URL_BASE : string :=
  "https://www.medstatsupplies.com/search?order=relevance:desc&keywords=BLUESTAR".

Definition TOTAL_PAGES : nat := 7.

(** [pageIndex === 1 ? SEARCH_URL_BASE : `${SEARCH_URL_BASE}&page=${pageIndex}`],
    for a page index that is a natural number. *)
Definition search_url (pageIndex : nat) : string :=
  if (pageIndex =? 1)%nat then SEARCH_URL_BASE
  else SEARCH_URL_BASE ++ "&page=" ++ pretty pageIndex.

(** A [Set] of strings is the list of its elements in insertion order;
    [set.add(x)] for each [x] of a list, where adding an element that is
    there changes nothing. *)
Fixpoint add_all (set : list string) (xs : list string) : list string :=
  match xs with
  | [] => set
  | x :: xs' => add_all (if bool_decide (x ∈ set) then set else (set ++ [x])%list) xs'
  end.

(** [Array.from(new Set(xs))] *)
Definition unique (xs : list string) : list string := add_all [] xs.

(** [s.includes(needle)] *)
Fixpoint starts_with (needle s : string) : bool :=
  match needle with
  | EmptyString => true
  | String a needle' =>
      match s with
      | String c s' => Ascii.eqb a c && starts_with needle' s'
      | EmptyString => false
      end
  end.

Fixpoint str_includes (needle s : string) : bool :=
  starts_with needle s
  || match s with
     | String _ s' => str_includes needle s'
     | EmptyString => false
     end.

(** [re.test(s)] for an expression with the [i] flag. *)
Definition test_i (re : regex) (s : string) : bool :=
  match match_ true re s with
  | Some _ => true
  | None => false
  end.

(** [/https?:/i] *)
Definition web_protocol : regex :=
  Seq (Literal "http") (Seq (Optional (char_eq true "s")) (Literal ":")).

(** What the heuristic reads of [new URL(u)]. *)
Record url := {
  protocol : string;
  pathname : string;
  hash : string
}.

Section Page.

(** [new URL(u)], [None] when it throws. *)
Variable parse_url : string -> option url.

(** The callback of [allHrefs.filter]. *)
Definition by_heuristic (u : string) : bool :=
  match parse_url u with
  | None => false
  | Some l =>
      if negb (test_i web_protocol (protocol l)) then false
      else if str_includes "/search" (pathname l) then false
      else if str_includes "/checkout" (pathname l) then false
      else if JS.truthy (hash l) then false
      else test_i (Literal "/product/") (pathname l)
           || test_i (Literal "/p/") (pathname l)
           || test_i (Literal "/sku/") (pathname l)
           || test_i (Literal "/prod/") (pathname l)
  end.

(** What a search page answers: whether [page.goto] and
    [waitForLoadState] resolve, and for each of the three [$$eval]
    queries the [href]s of the anchors it selects, [None] when the query
    rejects. The wait for the product grid has a [catch] and does not
    count. *)
Record listing := {
  goto_resolves : bool;
  load_resolves : bool;
  image_hrefs : option (list string);
  title_hrefs : option (list string);
  all_hrefs : option (list string)
}.

(** The part the two collectors share, from the three queries on. The
    first two have a [catch] that gives the empty array; the third has
    none. *)
Definition collect_links (pg : listing) : option (list string) :=
  let byImage := default [] (unique <$> image_hrefs pg) in
  let byTitle := default [] (unique <$> title_hrefs pg) in
  match all_hrefs pg with
  | None => None
  | Some hrefs =>
      let allHrefs := unique hrefs in
      let byHeuristic := List.filter by_heuristic allHrefs in
      Some (unique (byTitle ++ byImage ++ byHeuristic)%list)
  end.

(** [collectProductUrlsForPage] of bluestar_all.spec.ts, on the answers
    of the page it navigates to; [None] when it rejects. *)
Definition collectProductUrlsForPage (pg : listing) : option (list string) :=
  if goto_resolves pg then collect_links pg else None.

(** [collectFirstPageProductUrls] of bluestar.spec.ts, which also waits
    for the network to be idle. *)
Definition collectFirstPageProductUrls (pg : listing) : option (list string) :=
  if goto_resolves pg && load_resolves pg then collect_links pg else None.

(** The loop over the pages 1 to [TOTAL_PAGES] of the test of
    bluestar_all.spec.ts: the set of all URLs after the pages
    [first], ..., [first + count - 1]. *)
Fixpoint collect_pages (site : string -> listing) (first count : nat)
    (allUrls : list string) : option (list string) :=
  match count with
  | O => Some allUrls
  | S count' =>
      match collectProductUrlsForPage (site (search_url first)) with
      | None => None
      | Some urls => collect_pages site (S first) count' (add_all allUrls urls)
      end
  end.

(** What a product page answers: [None] when [page.goto] or
    [waitForLoadState] rejects, otherwise what the extractor reads. *)
Fixpoint visit_all (visit : string -> option Extract.page_view) (urls : list string)
    : option (list ProductRecord) :=
  match urls with
  | [] => Some []
  | u :: urls' =>
      match visit u with
      | None => None
      | Some view =>
          match visit_all visit urls' with
          | None => None
          | Some results => Some (Extract.extractProductDetails view :: results)
          end
      end
  end.

(** What a test leaves: the two JSON files and the workbook, each when
    it was written, and whether the test passed. *)
Record run := {
  saved_urls : option (list string);
  saved_products : option (list ProductRecord);
  written : option ExcelJS.worksheet;
  passed : bool
}.

Definition aborted : run :=
  {| saved_urls := None; saved_products := None; written := None; passed := false |}.

(** The test of bluestar_all.spec.ts after the login. *)
Definition test_all (site : string -> listing)
    (visit : string -> option Extract.page_view)
    (file : option (gmap nat (gmap nat ExcelJS.value))) (runDate runTime : string) : run :=
  match collect_pages site 1 TOTAL_PAGES [] with
  | None => aborted
  | Some productUrls =>
      match visit_all visit productUrls with
      | None =>
          {| saved_urls := Some productUrls; saved_products := None;
             written := None; passed := false |}
      | Some results =>
          {| saved_urls := Some productUrls;
             saved_products := Some results;
             written := Some (Writer.writeExcel file results runDate runTime);
             passed := (0 <? length results)%nat |}
      end
  end.

(** The test of bluestar.spec.ts after the login. *)
Definition test_page1 (site : string -> listing)
    (visit : string -> option Extract.page_view)
    (file : option (gmap nat (gmap nat ExcelJS.value))) (runDate runTime : string) : run :=
  match collectFirstPageProductUrls (site SEARCH_URL_BASE) with
  | None => aborted
  | Some productUrls =>
      match visit_all visit productUrls with
      | None =>
          {| saved_urls := Some productUrls; saved_products := None;
             written := None; passed := false |}
      | Some results =>
          {| saved_urls := Some productUrls;
             saved_products := Some results;
             written := Some (Writer.writeExcel_inline file results runDate runTime);
             passed := (0 <? length results)%nat
                       && forallb (fun r => JS.truthy (productUrl r)) results |}
      end
  end.

End Page.

End Scrape.


(** * Vocabulary of the properties *)

Import Regex Extract ExcelJS Writer Login.

(** An environment variable that is missing or empty. *)
Definition unset (env : gmap string string) (name : string) : Prop :=
  env !! name = None \/ env !! name = Some "".

(** An environment with the e-mail address only, and one with both
    variables. *)
Definition credentials_checked_env_without_password : gmap string string :=
  {[ "MEDSTAT_EMAIL" := "buyer@example.com" ]}.

Definition credentials_checked_env_complete : gmap string string :=
  {[ "MEDSTAT_EMAIL" := "buyer@example.com"; "MEDSTAT_PASSWORD" := "secret" ]}.

(** The first label, in order, whose expression matches with a capture
    that is not empty once trimmed; the value is the trimmed capture. *)
Fixpoint first_value (text : string) (labels : list regex) : option string :=
  match labels with
  | [] => None
  | r :: labels' =>
      match matchAfter text r with
      | Some v => Some v
      | None => first_value text labels'
      end
  end.

(** The trimmed capture of the first label, in order, whose expression
    matches at all. *)
Fixpoint first_match_capture (text : string) (labels : list regex) : option string :=
  match labels with
  | [] => None
  | r :: labels' =>
      match match_ true r text with
      | Some m => JS.trim <$> group1 m
      | None => first_match_capture text labels'
      end
  end.

(** The line break of [innerText]. *)
Definition line_break : string := String newline "".

(** A page whose details read [Item: 5] on one line and [SKU: ] on the
    last one. *)
Definition page_sku_blank_at_end : page_view :=
  {| page_url := "https://www.medstatsupplies.com/p/1";
     h1_textContent := Some "Bluestar";
     details_innerText := Some ("Item: 5" ++ line_break ++ "SKU: ");
     body_innerText := None |}.

(** A text of white space only. *)
Definition ws_only (s : string) : Prop := JS.all_chars JS.is_space s = true.


(** The character before the position reached after [s]. *)
Fixpoint last_char (prev : option ascii) (s : string) : option ascii :=
  match s with
  | EmptyString => prev
  | String c s' => last_char (Some c) s'
  end.



(** Rows added one after the other, each after the last row. *)
Definition append_rows (css : list (gmap nat value)) (ws : worksheet) : worksheet :=
  foldl (fun ws cs => set_row (rowCount ws + 1) cs ws) ws css.

(** The value at an index of a sparse array, if the index holds one. *)
Definition get (arr : list slot) (n : nat) : option value :=
  match arr !! n with
  | Some (Elem v) => Some v
  | _ => None
  end.

(** [headerIndex], as the [forEach] over [headers] fills it. *)
Definition header_index (headers : list (option string)) : gmap string nat :=
  index_headers 0 headers ∅.

(** The assignments of the loop body of [writeExcel], in order. *)
Definition assignments (runDate runTime : string) (rec : ProductRecord)
    : list (string * value) :=
  [ ("DATE", Text runDate);
    ("TIME", Text runTime);
    ("Item Name", or_null (productName rec));
    ("SKU", or_null (sku rec));
    ("DESCRIPTION", or_null (description rec));
    ("MPN", or_null (mpn rec));
    ("MANUFACTURER", or_null (manufacturer rec));
    ("PRICE", price_cell (price rec));
    ("STOCK", stock_cell (stock rec));
    ("PRODUCT URL", Text (productUrl rec)) ].

(** One assignment [rowValues[headerIndex[name]] = v]. *)
Definition assign (hi : gmap string nat) (arr : list slot) (a : string * value)
    : list slot :=
  array_set (hi !! a.1) a.2 arr.

(** The cells of a row that hold a value. *)
Definition shown (cs : gmap nat value) : gmap nat value := omap non_null cs.

(** A step that works on row 1 only. *)
Definition header_step (f : worksheet -> worksheet) : Prop :=
  forall ws,
    rowCount (f ws) = 1 `max` rowCount ws
    /\ forall n, n <> 1 -> rows (f ws) !! n = rows ws !! n.

(** A step that leaves the values of the rows below the header alone. *)
Definition values_step (f : worksheet -> worksheet) : Prop :=
  forall ws,
    rowCount (f ws) = 1 `max` rowCount ws
    /\ forall n, n <> 1 -> shown (cells n (f ws)) = shown (cells n ws).

(** The sheet [writeExcel] appends to. *)
Definition prepared (ws : worksheet) : worksheet :=
  format_price (header_index (reconcile ws).1) (reconcile ws).2.

(** The sheet the inline writer appends to. *)
Definition prepared_inline (ws : worksheet) : worksheet :=
  format_price_key (enforce_header ws).

(** The header row of the canonical columns. *)
Definition header_cells : gmap nat value :=
  list_to_map
    [ (1, Text "DATE"); (2, Text "TIME"); (3, Text "Item Name"); (4, Text "SKU");
      (5, Text "DESCRIPTION"); (6, Text "MPN"); (7, Text "MANUFACTURER");
      (8, Text "PRICE"); (9, Text "STOCK"); (10, Text "PRODUCT URL") ].

(** The row of a record under the canonical columns. *)
Definition canonical_cells (runDate runTime : string) (rec : ProductRecord)
    : gmap nat value :=
  list_to_map
    [ (1, Text runDate); (2, Text runTime);
      (3, or_null (productName rec)); (4, or_null (sku rec));
      (5, or_null (description rec)); (6, or_null (mpn rec));
      (7, or_null (manufacturer rec)); (8, price_cell (price rec));
      (9, stock_cell (stock rec)); (10, Text (productUrl rec)) ].

(** A new sheet with its columns set. *)
Definition fresh_sheet : worksheet := set_columns columnDefs (open_sheet None).

(** A record as the extractor produces them. *)
Definition sample_record : ProductRecord :=
  {| productUrl := "https://www.medstatsupplies.com/p/1";
     productName := Some "Bluestar kit";
     sku := Some "BS-100";
     mpn := None;
     manufacturer := Some "Bluestar";
     price := Some "$1,234.56";
     stock := Some "12 in stock";
     description := None |}.



(** The headers row 1 of a sheet reads, as [writeExcel] reads them. *)
Definition existing_headers (ws : worksheet) : list (option string) :=
  header_text <$> drop 1 (row_values (cells 1 ws)).



(** A workbook whose header row has the canonical texts with
    MANUFACTURER as the last column instead of the seventh. *)
Definition workbook_manufacturer_last : gmap nat (gmap nat value) :=
  {[ 1 := list_to_map
            [ (1, Text "DATE"); (2, Text "TIME"); (3, Text "Item Name");
              (4, Text "SKU"); (5, Text "DESCRIPTION"); (6, Text "MPN");
              (7, Text "PRICE"); (8, Text "STOCK"); (9, Text "PRODUCT URL");
              (10, Text "MANUFACTURER") ];
     2 := list_to_map
            [ (1, Text "11/01/2026"); (2, Text "08:00 AM PDT"); (3, Text "Bluestar kit");
              (4, Text "BS-100"); (5, Null); (6, Null);
              (7, Num (S754_finite false 5429652300748554 (-42)));
              (8, Num (S754_finite false (12 * 2 ^ 49) (-49)));
              (9, Text "https://www.medstatsupplies.com/p/1");
              (10, Text "Bluestar") ] ]}.

(** A workbook as a first run leaves it. *)
Definition workbook_after_first_run : gmap nat (gmap nat value) :=
  rows (writeExcel None [sample_record] "11/01/2026" "08:00 AM PDT").

(** A workbook of an earlier revision, without the MANUFACTURER column. *)
Definition workbook_without_manufacturer : gmap nat (gmap nat value) :=
  {[ 1 := list_to_map
            [ (1, Text "DATE"); (2, Text "TIME"); (3, Text "Item Name");
              (4, Text "SKU"); (5, Text "DESCRIPTION"); (6, Text "MPN");
              (7, Text "PRICE"); (8, Text "STOCK"); (9, Text "PRODUCT URL") ];
     2 := list_to_map
            [ (1, Text "11/01/2026"); (2, Text "08:00 AM PDT"); (3, Text "Bluestar kit");
              (4, Text "BS-100"); (5, Null); (6, Null);
              (7, Num (S754_finite false 5429652300748554 (-42)));
              (8, Num (S754_finite false (12 * 2 ^ 49) (-49)));
              (9, Text "https://www.medstatsupplies.com/p/1") ] ]}.

(** A record whose price has no digit. *)
Definition record_call_for_quote : ProductRecord :=
  {| productUrl := "https://www.medstatsupplies.com/p/7";
     productName := Some "Bluestar refill";
     sku := None; mpn := None; manufacturer := None;
     price := Some "Call for quote";
     stock := Some "N/A";
     description := None |}.

(** The record of a product page: the page resolved and the record is
    what the extractor reads of it. *)
Definition scraped_from (visit : string -> option page_view)
    (u : string) (r : ProductRecord) : Prop :=
  exists view, visit u = Some view /\ r = extractProductDetails view.

(** A stand-in for [new URL(u)] on the links of the shop: the path is
    what follows the host. *)
Definition shop_url (u : string) : option Scrape.url :=
  if Scrape.starts_with "https://www.medstatsupplies.com/" u
  then Some {| Scrape.protocol := "https:";
               Scrape.pathname := substring 31 (String.length u - 31) u;
               Scrape.hash := "" |}
  else None.

(** A search page with two product tiles, one of them linked twice, a
    link to the cart, and no image links. *)
Definition sample_listing : Scrape.listing :=
  {| Scrape.goto_resolves := true;
     Scrape.load_resolves := true;
     Scrape.image_hrefs := None;
     Scrape.title_hrefs :=
       Some [ "https://www.medstatsupplies.com/bluestar-kit";
              "https://www.medstatsupplies.com/bluestar-refill";
              "https://www.medstatsupplies.com/bluestar-kit" ];
     Scrape.all_hrefs :=
       Some [ "https://www.medstatsupplies.com/cart";
              "https://www.medstatsupplies.com/product/bluestar-kit";
              "https://www.medstatsupplies.com/bluestar-kit" ] |}.

(** A product page that shows its own URL. *)
Definition sample_view (u : string) : page_view :=
  {| page_url := u;
     h1_textContent := Some " Bluestar kit ";
     details_innerText :=
       Some ("SKU: BS-100" ++ line_break ++ "Current Stock: 12 in stock"
             ++ line_break ++ "Price $1,234.56");
     body_innerText := None |}.

(** Two texts that are equal up to the case of their letters. *)
Fixpoint ci_equal (l l' : string) : bool :=
  match l, l' with
  | EmptyString, EmptyString => true
  | String a l, String c l' => char_eq true a c && ci_equal l l'
  | _, _ => false
  end.

(** A text that does not start with a character of the class. *)
Definition starts_outside (p : ascii -> bool) (s : string) : Prop :=
  match s with
  | String c _ => p c = false
  | EmptyString => True
  end.

(** What may stand between a label and its value: white space, then
    nothing more, or one separator and white space again. *)
Definition label_gap (ws1 sep ws2 : string) : Prop :=
  ws_only ws1 /\ ws_only ws2
  /\ (sep = "" \/ exists c, sep = String c "" /\ is_separator c = true).

(** A text that starts with a dollar sign and a character of a price. *)
Definition amount_starts (s : string) : bool :=
  match s with
  | String c (String d _) => Ascii.eqb "$" c && is_price_char d
  | _ => false
  end.

(** The fields of a record that [extractProductDetails] trims. *)
Definition trimmed_fields : list (ProductRecord -> option string) :=
  [ productName; sku; mpn; manufacturer; stock; description ].

(** A workbook in which two columns are headed SKU. *)
Definition workbook_two_sku_columns : gmap nat (gmap nat value) :=
  {[ 1 := list_to_map
            [ (1, Text "SKU"); (2, Text "DATE"); (3, Text "SKU");
              (4, Text "MANUFACTURER") ];
     2 := list_to_map
            [ (2, Text "11/01/2026"); (3, Text "BS-100"); (4, Text "Bluestar") ] ]}.

(** The calls of [loginIfNeeded] on the page, in order. *)
Definition login_calls (email password : string) : list action :=
  [ Goto LOGIN_URL; Click "Email Address"; Fill "Email Address" email;
    Click "Password"; Fill "Password" password; Click "Log In";
    AwaitLoggedIn; WaitForLoadState ].

(** A call that resolves, or whose rejection is caught. *)
Definition harmless (resolves : action -> bool) (a : action) : Prop :=
  a = AwaitLoggedIn \/ resolves a = true.

(** Calls made one after the other, each awaited, the wait for the
    logged-in state with its [catch]. *)
Fixpoint perform (resolves : action -> bool) (calls : list action) : script unit :=
  match calls with
  | [] => ret tt
  | a :: calls' =>
      bind (match a with
            | AwaitLoggedIn => caught (call resolves a)
            | _ => call resolves a
            end)
        (fun _ => perform resolves calls')
  end.

(** An environment with both credentials. *)
Definition env_with_credentials : gmap string string :=
  {[ "MEDSTAT_EMAIL" := "buyer@example.com"; "MEDSTAT_PASSWORD" := "secret" ]}.

(** A login page on which only the wait for the logged-in state fails,
    and one without a password box. *)
Definition slow_login (a : action) : bool :=
  match a with
  | AwaitLoggedIn => false
  | _ => true
  end.

Definition no_password_box (a : action) : bool :=
  match a with
  | Click target => negb (String.eqb target "Password")
  | _ => true
  end.

(** The sign [parseInt] reads. *)
Definition sign_text (neg : bool) : string := if neg then "-" else "".

(** * Properties *)

(** ** Numeric coercion of the PRICE and STOCK cells *)

Section Coercion.

Import ExcelJS Writer.

Lemma filter_chars_all (p : ascii -> bool) (s : string) :
  JS.all_chars p (JS.filter_chars p s) = true.
Proof.
  induction s as [|c s IH]; simpl; [reflexivity|].
  destruct (p c) eqn:Hc; simpl; [rewrite Hc|]; exact IH.
Qed.

(** What [Number] receives is always inside the alphabet its model
    covers. *)
Lemma price_digits_only (p : string) :
  JS.all_chars is_price_digit (JS.filter_chars is_price_digit p) = true.
Proof. apply filter_chars_all. Qed.

(** The rule of the PRICE cell: the number when the stripped text
    converts to a finite one, the text itself otherwise. *)
Lemma price_cell_rule (p : string) :
  price_cell (Some p) =
    let n := JS.Number (JS.filter_chars is_price_digit p) in
    if JS.truthy p && JS.isFinite n then Num n else Text p.
Proof.
  unfold price_cell, parsePriceToNumber, number_or, or_null; simpl.
  destruct (JS.truthy p); simpl; [|reflexivity].
  destruct (JS.isFinite _); reflexivity.
Qed.

Lemma price_cell_null : price_cell None = Null.
Proof. reflexivity. Qed.

Example price_cell_dollars :
  price_cell (Some "$1,234.56") = Num (S754_finite false 5429652300748554 (-42)).
Proof. vm_compute. reflexivity. Qed.

(** That number is the binary64 nearest to 1234.56: it is
    [5429652300748554 * 2^-42], within half a unit in the last place
    ([2^-43]) of [123456 / 100]. *)
Example price_cell_dollars_nearest :
  (Z.abs (100 * 5429652300748554 - 123456 * 2 ^ 42) <= 50)%Z.
Proof. vm_compute. discriminate. Qed.

(** A text that is not a decimal literal after stripping is kept. *)
Example price_cell_two_points :
  price_cell (Some "$1.2.3") = Text "$1.2.3".
Proof. vm_compute. reflexivity. Qed.

(** The extractor only ever finds prices that start with a dollar sign;
    one without a digit becomes 0 as well. *)
Example price_cell_dollar_comma :
  price (Extract.extractProductDetails
           {| Extract.page_url := "https://www.medstatsupplies.com/p/8";
              Extract.h1_textContent := None;
              Extract.details_innerText := Some "Price: $, on request";
              Extract.body_innerText := None |}) = Some "$,"
  /\ price_cell (Some "$,") = Num (S754_zero false).
Proof. split; vm_compute; reflexivity. Qed.

(** Claim C1. The PRICE cell of a record whose price is
    ["Call for quote"] is not that text: stripping leaves the empty
    string, [Number] of the empty string is 0, which is finite, and the
    cell holds the number 0, with either writer. The stock text ["N/A"]
    of the same record is kept, by the guard that [parseStockToNumber]
    has for the empty string. *)
Theorem price_call_for_quote_is_zero :
  JS.filter_chars is_price_digit "Call for quote" = ""
  /\ JS.Number "" = S754_zero false
  /\ price_cell (Some "Call for quote") = Num (S754_zero false)
  /\ rows (writeExcel None [record_call_for_quote] "11/02/2026" "10:00 AM PST")
       !! 2 ≫= (.!! 8) = Some (Num (S754_zero false))
  /\ rows (writeExcel_inline None [record_call_for_quote] "11/02/2026" "10:00 AM PST")
       !! 2 ≫= (.!! 8) = Some (Num (S754_zero false))
  /\ rows (writeExcel None [record_call_for_quote] "11/02/2026" "10:00 AM PST")
       !! 2 ≫= (.!! 9) = Some (Text "N/A").
Proof. repeat split; vm_compute; reflexivity. Qed.

Lemma stock_digits_only (s : string) :
  JS.all_chars is_stock_digit (JS.filter_chars is_stock_digit s) = true.
Proof. apply filter_chars_all. Qed.

Lemma filter_chars_empty_of_empty (p : ascii -> bool) (s : string) :
  JS.truthy s = false -> JS.truthy (JS.filter_chars p s) = false.
Proof. destruct s; [reflexivity|discriminate]. Qed.

(** [parseInt] reads a sign and then the run of digits, and stops at
    whatever follows. *)
Lemma span_digits (ds rest : string) :
  JS.all_chars JS.is_digit ds = true ->
  match rest with
  | String c _ => JS.is_digit c = false
  | EmptyString => True
  end ->
  JS.span JS.is_digit (ds ++ rest) = (ds, rest).
Proof.
  intros Hds Hrest. induction ds as [|c ds IH]; simpl.
  - destruct rest as [|c r]; [reflexivity|]. simpl. rewrite Hrest. reflexivity.
  - simpl in Hds. apply andb_prop in Hds as [Hc Hds].
    rewrite Hc, (IH Hds). reflexivity.
Qed.

Lemma trimStart_digit (c : ascii) (s : string) :
  JS.is_space c = false -> JS.trimStart (String c s) = String c s.
Proof. intros H. simpl. rewrite H. reflexivity. Qed.

Lemma parseInt10_unsigned (c : ascii) (ds rest : string) :
  JS.all_chars JS.is_digit (String c ds) = true ->
  match rest with
  | String c _ => JS.is_digit c = false
  | EmptyString => True
  end ->
  JS.parseInt10 (String c ds ++ rest) =
    JS.of_decimal false (JS.digits_value (String c ds)) 0.
Proof.
  intros Hds Hrest. unfold JS.parseInt10.
  assert (Hc : JS.is_digit c = true) by (simpl in Hds; apply andb_prop in Hds; tauto).
  assert (Hsp : JS.is_space c = false).
  { revert Hc. unfold JS.is_digit, JS.is_space.
    destruct (Nat.leb_spec 48 (JS.code c)), (Nat.leb_spec (JS.code c) 57);
      try discriminate. intros _.
    destruct (Nat.leb_spec 9 (JS.code c)), (Nat.leb_spec (JS.code c) 13),
      (Nat.eqb_spec (JS.code c) 32), (Nat.eqb_spec (JS.code c) 160);
      simpl; try reflexivity; lia. }
  change (String c ds ++ rest) with (String c (ds ++ rest)).
  rewrite trimStart_digit by exact Hsp.
  replace (match String c (ds ++ rest) with
           | String "-" r => (true, r)
           | String "+" r => (false, r)
           | _ => (false, String c (ds ++ rest))
           end) with (false, String c (ds ++ rest)).
  2:{ destruct c as [[] [] [] [] [] [] [] []]; try reflexivity;
      vm_compute in Hc; discriminate. }
  change (String c (ds ++ rest)) with (String c ds ++ rest).
  rewrite (span_digits _ _ Hds Hrest). reflexivity.
Qed.

Lemma parseInt10_negative (ds rest : string) :
  JS.all_chars JS.is_digit ds = true ->
  JS.truthy ds = true ->
  match rest with
  | String c _ => JS.is_digit c = false
  | EmptyString => True
  end ->
  JS.parseInt10 (String "-" (ds ++ rest)) =
    JS.of_decimal true (JS.digits_value ds) 0.
Proof.
  intros Hds Hne Hrest. unfold JS.parseInt10.
  change (JS.trimStart (String "-" (ds ++ rest))) with (String "-" (ds ++ rest)).
  cbv beta iota. rewrite (span_digits _ _ Hds Hrest), Hne. reflexivity.
Qed.

(** No digit after the optional sign: not a number. *)
Lemma parseInt10_sign_only (rest : string) :
  match rest with
  | String c _ => JS.is_digit c = false
  | EmptyString => True
  end ->
  JS.parseInt10 (String "-" rest) = JS.NaN.
Proof.
  intros Hrest. unfold JS.parseInt10.
  change (JS.trimStart (String "-" rest)) with (String "-" rest).
  cbv beta iota.
  destruct rest as [|c r]; [reflexivity|]. simpl. rewrite Hrest. reflexivity.
Qed.

(** The integers 12 and -7 as binary64 numbers. *)
Example twelve_exact :
  JS.of_decimal false 12 0 = S754_finite false (12 * 2 ^ 49) (-49).
Proof. vm_compute. reflexivity. Qed.

(** Claim C6. The STOCK cell of a stock text [s]: all characters but the
    digits and [-] are removed and the rest is read as an integer with
    [parseInt]; the cell holds that number, and holds [s] itself when
    nothing is left or when [parseInt] finds no integer. So
    ["12 in stock"] is stored as 12 and ["N/A"] as ["N/A"]. *)
Theorem stock_cell_rule (s : string) :
  let cleaned := JS.filter_chars is_stock_digit s in
  stock_cell (Some s) =
    (if JS.truthy cleaned && negb (JS.isNaN (JS.parseInt10 cleaned))
     then Num (JS.parseInt10 cleaned)
     else Text s)
  /\ stock_cell (Some "12 in stock") = Num (S754_finite false (12 * 2 ^ 49) (-49))
  /\ JS.filter_chars is_stock_digit "N/A" = ""
  /\ stock_cell (Some "N/A") = Text "N/A".
Proof.
  split; [|repeat split; vm_compute; reflexivity].
  unfold stock_cell, parseStockToNumber, number_or, or_null.
  destruct (JS.truthy s) eqn:Hs; simpl.
  - destruct (JS.truthy (JS.filter_chars is_stock_digit s)); simpl; [|reflexivity].
    destruct (JS.isNaN _); reflexivity.
  - rewrite (filter_chars_empty_of_empty _ _ Hs). reflexivity.
Qed.

End Coercion.

(** ** Credentials *)

Section Credentials.

Import Login.

Lemma env_or_empty_unset (env : gmap string string) (name : string) :
  unset env name <-> env_or_empty env name = "".
Proof.
  unfold unset, env_or_empty. destruct (env !! name) as [v|].
  - destruct v as [|c v]; simpl; split.
    + reflexivity.
    + intros _. right. reflexivity.
    + intros [H|H]; discriminate.
    + discriminate.
  - split; [reflexivity|]. intros _. left. reflexivity.
Qed.

(** Claim C9. When one of the two credential variables is missing or
    empty, [loginIfNeeded] throws the configuration error without a
    single call on the page, and a test whose output directory is in
    place ends with that error; when both are set and not empty it
    throws no configuration error and its first call is the navigation
    to the login page. *)
Theorem credentials_checked_before_navigation
    (resolves : action -> bool) (ensureOutputDir scrape : script unit)
    (env : gmap string string) (tr0 tr : list action) :
  (unset env "MEDSTAT_EMAIL" \/ unset env "MEDSTAT_PASSWORD" ->
     loginIfNeeded resolves env tr
       = (inl (ConfigError missing_credentials_message), tr)
     /\ (ensureOutputDir tr0 = (inr tt, tr) ->
         test_body resolves ensureOutputDir scrape env tr0
         = (inl (ConfigError missing_credentials_message), tr)))
  /\ (~ unset env "MEDSTAT_EMAIL" /\ ~ unset env "MEDSTAT_PASSWORD" ->
     (forall m, fst (loginIfNeeded resolves env tr) <> inl (ConfigError m))
     /\ exists tr', snd (loginIfNeeded resolves env tr)
                    = (tr ++ Goto LOGIN_URL :: tr')%list).
Proof.
  split.
  - intros H.
    assert (Hl : loginIfNeeded resolves env tr
                 = (inl (ConfigError missing_credentials_message), tr)).
    { unfold loginIfNeeded.
      destruct H as [H|H]; apply env_or_empty_unset in H; rewrite H; simpl.
      - reflexivity.
      - rewrite orb_true_r. reflexivity. }
    split; [exact Hl|]. intros Hdir.
    unfold test_body, mbind, script_bind, bind. rewrite Hdir, Hl. reflexivity.
  - intros [He Hp].
    rewrite env_or_empty_unset in He, Hp.
    unfold loginIfNeeded.
    destruct (env_or_empty env "MEDSTAT_EMAIL") as [|c1 e] eqn:E1; [congruence|].
    destruct (env_or_empty env "MEDSTAT_PASSWORD") as [|c2 p] eqn:E2; [congruence|].
    simpl. unfold mbind, script_bind, bind, caught, call.
    repeat match goal with
    | |- context [resolves ?a] => destruct (resolves a); simpl
    end;
    (split; [discriminate|eexists; rewrite <- ?app_assoc; simpl; reflexivity]).
Qed.

Lemma credentials_checked_before_navigation_witness :
  (loginIfNeeded (fun _ => true) credentials_checked_env_without_password []
     = (inl (ConfigError missing_credentials_message), [])
   /\ test_body (fun _ => true) (ret tt) (ret tt)
        credentials_checked_env_without_password []
      = (inl (ConfigError missing_credentials_message), []))
  /\ ((forall m, fst (loginIfNeeded (fun _ => true) credentials_checked_env_complete [])
                 <> inl (ConfigError m))
      /\ exists tr', snd (loginIfNeeded (fun _ => true) credentials_checked_env_complete [])
                     = ([] ++ Goto LOGIN_URL :: tr')%list).
Proof.
  split.
  - destruct (proj1 (credentials_checked_before_navigation (fun _ => true) (ret tt) (ret tt)
                       credentials_checked_env_without_password [] []))
      as [H1 H2]; [right; left; reflexivity|].
    split; [exact H1|apply H2; reflexivity].
  - apply (proj2 (credentials_checked_before_navigation (fun _ => true) (ret tt) (ret tt)
                    credentials_checked_env_complete [] [])).
    split; intros [H|H]; vm_compute in H; discriminate.
Defined.

End Credentials.

(** ** Field extraction *)

Section Extraction.

Import Regex Extract.

Lemma matchAfter_spec (text : string) (r : regex) (v : string) :
  matchAfter text r = Some v <->
  exists m g, match_ true r text = Some m /\ group1 m = Some g
              /\ v = JS.trim g /\ JS.truthy v = true.
Proof.
  unfold matchAfter. split.
  - destruct (match_ true r text) as [m|]; [|discriminate].
    destruct (group1 m) as [g|] eqn:Hg; [|discriminate].
    destruct (JS.truthy (JS.trim g)) eqn:Ht; [|discriminate].
    intros [= <-]. exists m, g. auto.
  - intros (m & g & -> & -> & -> & Ht). rewrite Ht. reflexivity.
Qed.

Lemma matchAfter_truthy (text : string) (r : regex) (v : string) :
  matchAfter text r = Some v -> JS.truthy v = true.
Proof. intros H. apply matchAfter_spec in H as (m & g & _ & _ & _ & Ht). exact Ht. Qed.

Lemma matchAfter_no_match (text : string) (r : regex) :
  match_ true r text = None -> matchAfter text r = None.
Proof. unfold matchAfter. intros ->. reflexivity. Qed.

Lemma or_else_matchAfter (text : string) (r : regex) (b : option string) :
  or_else (matchAfter text r) b =
    match matchAfter text r with
    | Some v => Some v
    | None => b
    end.
Proof.
  destruct (matchAfter text r) as [v|] eqn:H; [|reflexivity].
  simpl. rewrite (matchAfter_truthy _ _ _ H). reflexivity.
Qed.

Lemma first_value_no_match (text : string) (labels : list regex) :
  (forall r, In r labels -> match_ true r text = None) ->
  first_value text labels = None.
Proof.
  induction labels as [|r labels IH]; intros H; simpl; [reflexivity|].
  rewrite matchAfter_no_match by (apply H; left; reflexivity).
  apply IH. intros r' Hr'. apply H. right. exact Hr'.
Qed.

(** Claim C8, as the code has it. Every field of the record is computed
    for every page, whatever the driver returned: each label is tried in
    its fixed order (for the sku, SKU before Item) and the first one
    whose expression matches with a capture that is not empty after
    trimming gives the field, as the trimmed capture; when no label
    matches the field is absent. *)
Theorem fields_by_label_priority (pg : page_view) :
  let text := detailsText_of pg in
  let r := extractProductDetails pg in
  sku r = first_value text [label_regex "SKU"; label_regex "Item"]
  /\ mpn r = first_value text [label_regex "MPN"]
  /\ manufacturer r = first_value text [label_regex "MANUFACTURER"]
  /\ stock r = first_value text [label_regex "Current Stock"]
  /\ description r = first_value text [description_regex]
  /\ (forall labels, (forall l, In l labels -> match_ true l text = None) ->
        first_value text labels = None)
  /\ (forall l v, matchAfter text l = Some v <->
        exists m g, match_ true l text = Some m /\ group1 m = Some g
                    /\ v = JS.trim g /\ JS.truthy v = true).
Proof.
  cbv zeta. unfold extractProductDetails; simpl.
  rewrite !or_else_matchAfter.
  repeat split;
    try (repeat match goal with
                | |- context [matchAfter ?t ?l] => destruct (matchAfter t l)
                end; reflexivity).
  - apply first_value_no_match.
  - apply matchAfter_spec.
  - apply matchAfter_spec.
Qed.

(** Claim C8, as stated, fails here: the SKU expression is the first one
    that matches, with the capture [" "], and the sku is the capture of
    the Item expression. *)
Lemma first_match_does_not_win :
  match_ true (label_regex "SKU") (detailsText_of page_sku_blank_at_end)
    = Some {| whole := "SKU: "; group1 := Some " " |}
  /\ sku (extractProductDetails page_sku_blank_at_end) = Some "5"
  /\ sku (extractProductDetails page_sku_blank_at_end)
     <> first_match_capture (detailsText_of page_sku_blank_at_end)
          [label_regex "SKU"; label_regex "Item"].
Proof.
  split; [vm_compute; reflexivity|].
  split; [vm_compute; reflexivity|].
  vm_compute. discriminate.
Qed.

(** *** A label followed by nothing but white space *)






Lemma run_seq (i : bool) (r1 r2 : regex) (k : cont) (prev : option ascii)
    (rest : string) (cap : option string) :
  run i (Seq r1 r2) k prev rest cap = run i r1 (run i r2 k) prev rest cap.
Proof. reflexivity. Qed.



Lemma search_eq (i : bool) (r : regex) (prev : option ascii) (rest : string) :
  search i r prev rest =
    match run i r accept prev rest None with
    | Some (rest', cap) => Some {| whole := consumed rest rest'; group1 := cap |}
    | None =>
        match rest with
        | String c rest' => search i r (Some c) rest'
        | EmptyString => None
        end
    end.
Proof. destruct rest; reflexivity. Qed.

(** A label expression cannot start at a character that is not the
    first letter of the label, nor at the end of the text. *)
Lemma run_label_mismatch (a c : ascii) (l : string) (value : regex) (k : cont)
    (prev : option ascii) (rest : string) (cap : option string) :
  char_eq true a c = false ->
  run true (Seq WordBoundary (Seq (Literal (String a l)) value)) k
    prev (String c rest) cap = None.
Proof.
  intros H. rewrite run_seq. cbn [run].
  destruct (xorb _ _); [|reflexivity].
  cbn [literal]. rewrite H. reflexivity.
Qed.










Lemma fields_by_label_priority_witness :
  first_value (detailsText_of page_sku_blank_at_end) [label_regex "Price"] = None
  /\ sku (extractProductDetails page_sku_blank_at_end)
     = first_value (detailsText_of page_sku_blank_at_end)
         [label_regex "SKU"; label_regex "Item"].
Proof.
  pose proof (fields_by_label_priority page_sku_blank_at_end) as H.
  cbv zeta in H. destruct H as (Hsku & _ & _ & _ & _ & Hnone & _).
  split; [|exact Hsku].
  apply Hnone. intros l [<-|[]]. vm_compute. reflexivity.
Defined.

End Extraction.

(** ** Rows and row numbers *)

Section Rows.

Import ExcelJS.

Context {A : Type}.

Implicit Types m : gmap nat A.

Lemma last_number_ge m (k : nat) : is_Some (m !! k) -> k <= last_number m.
Proof.
  intros H. unfold last_number. apply max_list_elem_of_le.
  apply elem_of_elements, elem_of_dom, H.
Qed.

Lemma last_number_is_Some m : last_number m <> 0 -> is_Some (m !! last_number m).
Proof.
  unfold last_number. intros H.
  apply elem_of_dom, elem_of_elements, max_list_elem_of.
  intros Hnil. rewrite Hnil in H. apply H. reflexivity.
Qed.

Lemma last_number_unique m (n : nat) :
  (forall k, is_Some (m !! k) -> k <= n) ->
  n = 0 \/ is_Some (m !! n) ->
  last_number m = n.
Proof.
  intros Hub Hn. apply Nat.le_antisymm.
  - destruct (decide (last_number m = 0)) as [->|Hne]; [lia|].
    apply Hub, last_number_is_Some, Hne.
  - destruct Hn as [->|Hn]; [lia|]. apply last_number_ge, Hn.
Qed.

Lemma last_number_insert m (k : nat) (x : A) :
  last_number (<[k := x]> m) = k `max` last_number m.
Proof.
  apply last_number_unique.
  - intros j [y Hj]. destruct (decide (k = j)) as [->|Hne]; [lia|].
    rewrite lookup_insert_ne in Hj by exact Hne.
    pose proof (last_number_ge m j (ex_intro _ y Hj)). lia.
  - destruct (decide (last_number m <= k)) as [Hle|Hgt].
    + right. replace (k `max` last_number m) with k by lia.
      rewrite lookup_insert_eq. eauto.
    + right. replace (k `max` last_number m) with (last_number m) by lia.
      rewrite lookup_insert_ne by lia. apply last_number_is_Some. lia.
Qed.

Lemma last_number_empty : last_number (∅ : gmap nat A) = 0.
Proof. reflexivity. Qed.

Lemma lookup_above_last m (k : nat) : last_number m < k -> m !! k = None.
Proof.
  intros H. destruct (m !! k) eqn:Hk; [|reflexivity].
  pose proof (last_number_ge m k (ex_intro _ _ Hk)). lia.
Qed.

End Rows.

Section Appending.

Import ExcelJS.

Lemma rowCount_set_row (n : nat) (cs : gmap nat value) (ws : worksheet) :
  rowCount (set_row n cs ws) = n `max` rowCount ws.
Proof. apply last_number_insert. Qed.

Lemma append_rows_cons (cs : gmap nat value) (css : list (gmap nat value))
    (ws : worksheet) :
  append_rows (cs :: css) ws = append_rows css (set_row (rowCount ws + 1) cs ws).
Proof. reflexivity. Qed.

Lemma append_rows_keys (css : list (gmap nat value)) :
  forall ws, keys (append_rows css ws) = keys ws.
Proof.
  induction css as [|cs css IH]; intros ws; [reflexivity|].
  rewrite append_rows_cons, IH. reflexivity.
Qed.

Lemma append_rows_rowCount (css : list (gmap nat value)) :
  forall ws, rowCount (append_rows css ws) = rowCount ws + length css.
Proof.
  induction css as [|cs css IH]; intros ws; [simpl; lia|].
  rewrite append_rows_cons, IH, rowCount_set_row. simpl. lia.
Qed.

(** Appending touches no row that was there, and the [i]-th new row is
    row [rowCount + 1 + i]. *)
Lemma append_rows_lookup (css : list (gmap nat value)) :
  forall ws n,
  rows (append_rows css ws) !! n =
    if decide (n <= rowCount ws) then rows ws !! n
    else css !! (n - rowCount ws - 1).
Proof.
  induction css as [|cs css IH]; intros ws n.
  - simpl. destruct (decide _); [reflexivity|].
    rewrite lookup_nil. apply lookup_above_last. unfold rowCount in *. lia.
  - rewrite append_rows_cons, IH, rowCount_set_row.
    replace ((rowCount ws + 1) `max` rowCount ws) with (rowCount ws + 1) by lia.
    simpl. destruct (decide (n <= rowCount ws + 1)) as [Hle|Hgt].
    + destruct (decide (n <= rowCount ws)) as [Hle'|Hgt'].
      * rewrite lookup_insert_ne by lia. reflexivity.
      * replace n with (rowCount ws + 1) by lia.
        rewrite lookup_insert_eq.
        replace (rowCount ws + 1 - rowCount ws - 1) with 0 by lia. reflexivity.
    + destruct (decide (n <= rowCount ws)) as [Hle'|Hgt']; [lia|].
      replace (n - rowCount ws - 1) with (S (n - (rowCount ws + 1) - 1)) by lia.
      reflexivity.
Qed.

End Appending.

(** ** Sparse arrays and name lookup *)

Section Arrays.

Import ExcelJS Writer.

Lemma get_ge (arr : list slot) (n : nat) : length arr <= n -> get arr n = None.
Proof. intros H. unfold get. rewrite lookup_ge_None_2 by exact H. reflexivity. Qed.

Lemma get_array_set (i : option nat) (v : value) (arr : list slot) (n : nat) :
  get (array_set i v arr) n = if decide (i = Some n) then Some v else get arr n.
Proof.
  destruct i as [k|]; [|reflexivity]. simpl.
  destruct (Nat.ltb_spec k (length arr)) as [Hlt|Hge].
  - destruct (decide (Some k = Some n)) as [[= ->]|Hne].
    + unfold get. rewrite list_lookup_insert_eq by exact Hlt. reflexivity.
    + unfold get. rewrite list_lookup_insert_ne by congruence. reflexivity.
  - destruct (decide (Some k = Some n)) as [[= ->]|Hne].
    + unfold get. rewrite lookup_app_r by exact Hge.
      rewrite lookup_app_r by (rewrite length_replicate; lia).
      rewrite length_replicate.
      replace (n - length arr - (n - length arr)) with 0 by lia. reflexivity.
    + assert (k <> n) by congruence.
      destruct (Nat.lt_ge_cases n (length arr)) as [Hn|Hn].
      * unfold get. rewrite lookup_app_l by exact Hn. reflexivity.
      * rewrite (get_ge arr n Hn). unfold get.
        rewrite lookup_app_r by exact Hn.
        destruct (Nat.lt_ge_cases (n - length arr) (k - length arr)) as [Hr|Hr].
        -- rewrite lookup_app_l by (rewrite length_replicate; exact Hr).
           rewrite lookup_replicate_2 by exact Hr. reflexivity.
        -- rewrite lookup_app_r by (rewrite length_replicate; exact Hr).
           rewrite length_replicate.
           destruct (n - length arr - (k - length arr)) as [|j] eqn:Hj; [lia|].
           reflexivity.
Qed.

Lemma owns_index_0_array_set (i : option nat) (v : value) (arr : list slot) :
  i <> Some 0 -> owns_index_0 arr = false ->
  owns_index_0 (array_set i v arr) = false.
Proof.
  intros Hi H. destruct i as [[|k]|]; simpl; [congruence| |exact H].
  destruct arr as [|s arr]; [reflexivity|].
  destruct (Nat.ltb_spec (S k) (length (s :: arr))); simpl; exact H.
Qed.

Lemma fill_cells_lookup (arr : list slot) :
  forall (col : nat) (cs : gmap nat value) (c : nat),
  fill_cells col arr cs !! c =
    match (if decide (col <= c) then get arr (c - col) else None) with
    | Some v => Some v
    | None => cs !! c
    end.
Proof.
  induction arr as [|s arr IH]; intros col cs c; simpl.
  - destruct (decide _); reflexivity.
  - rewrite IH.
    destruct (decide (S col <= c)) as [Hgt|Hle].
    + destruct (decide (col <= c)) as [_|]; [|lia].
      replace (c - col) with (S (c - S col)) by lia.
      change (get (s :: arr) (S (c - S col))) with (get arr (c - S col)).
      destruct (get arr (c - S col)); [reflexivity|].
      destruct s; try reflexivity. rewrite lookup_insert_ne by lia. reflexivity.
    + destruct (decide (col <= c)) as [Hge|Hlt].
      * replace c with col by lia. replace (col - col) with 0 by lia.
        destruct s; try reflexivity. unfold get; simpl.
        rewrite lookup_insert_eq. reflexivity.
      * destruct s; try reflexivity. rewrite lookup_insert_ne by lia. reflexivity.
Qed.

(** A sparse array that does not own index 0 puts index [c] in column
    [c]. *)
Lemma cells_of_array_sparse (arr : list slot) (c : nat) :
  owns_index_0 arr = false -> cells_of_array arr !! c = get arr c.
Proof.
  intros H. unfold cells_of_array. rewrite H, fill_cells_lookup.
  destruct (decide (0 <= c)); [|lia].
  rewrite Nat.sub_0_r, lookup_empty. destruct (get arr c); reflexivity.
Qed.

(** An array that owns index 0 is shifted by one column. *)
Lemma cells_of_array_contiguous (arr : list slot) (c : nat) :
  owns_index_0 arr = true ->
  cells_of_array arr !! c = if decide (1 <= c) then get arr (c - 1) else None.
Proof.
  intros H. unfold cells_of_array. rewrite H, fill_cells_lookup.
  rewrite lookup_empty. destruct (decide (1 <= c)); [|reflexivity].
  destruct (get arr (c - 1)); reflexivity.
Qed.

(** A header index maps a text to one more than a position of the
    headers that holds it, or is as it was. *)
Lemma index_headers_lookup (headers : list (option string)) :
  forall (idx : nat) (hi : gmap string nat) (name : string) (c : nat),
  index_headers idx headers hi !! name = Some c ->
  hi !! name = Some c
  \/ (idx + 1 <= c /\ headers !! (c - idx - 1) = Some (Some name)).
Proof.
  induction headers as [|h headers IH]; intros idx hi name c H; simpl in H; [auto|].
  apply IH in H as [H|[Hle H]].
  - destruct h as [t|]; [|auto].
    destruct (decide (t = name)) as [->|Hne].
    + rewrite lookup_insert_eq in H. injection H as <-.
      right. split; [lia|]. replace (idx + 1 - idx - 1) with 0 by lia. reflexivity.
    + rewrite lookup_insert_ne in H by exact Hne. auto.
  - right. split; [lia|].
    replace (c - idx - 1) with (S (c - S idx - 1)) by lia. exact H.
Qed.

Lemma header_index_position (headers : list (option string)) (name : string) (c : nat) :
  header_index headers !! name = Some c ->
  1 <= c /\ headers !! (c - 1) = Some (Some name).
Proof.
  intros H. apply index_headers_lookup in H as [H|[Hle H]].
  - rewrite lookup_empty in H. discriminate.
  - split; [lia|]. replace (c - 1) with (c - 0 - 1) by lia. exact H.
Qed.

Lemma header_index_injective (headers : list (option string)) (n1 n2 : string) (c : nat) :
  header_index headers !! n1 = Some c -> header_index headers !! n2 = Some c -> n1 = n2.
Proof.
  intros H1 H2.
  apply header_index_position in H1 as [_ H1].
  apply header_index_position in H2 as [_ H2]. congruence.
Qed.

Lemma rowValues_assignments (hi : gmap string nat) (runDate runTime : string)
    (rec : ProductRecord) :
  hi !! "MANUFACTURER" <> Some 0 ->
  rowValues hi runDate runTime rec
  = foldl (assign hi) [] (assignments runDate runTime rec).
Proof.
  intros H. unfold rowValues, assignments, assign; simpl.
  destruct (hi !! "MANUFACTURER") as [[|c]|]; [congruence|reflexivity|reflexivity].
Qed.

Lemma get_foldl_assign_other (hi : gmap string nat) (l : list (string * value)) (c : nat) :
  forall arr,
  (forall a, a ∈ l -> hi !! a.1 <> Some c) ->
  get (foldl (assign hi) arr l) c = get arr c.
Proof.
  induction l as [|a l IH]; intros arr H; [reflexivity|]. simpl.
  rewrite IH by (intros a' Ha'; apply H; right; exact Ha').
  unfold assign. rewrite get_array_set.
  destruct (decide _) as [Heq|]; [|reflexivity].
  exfalso. apply (H a); [left|exact Heq].
Qed.

Lemma get_foldl_assign (hi : gmap string nat) (l : list (string * value)) :
  (forall n1 n2 c, hi !! n1 = Some c -> hi !! n2 = Some c -> n1 = n2) ->
  NoDup l.*1 ->
  forall arr name v c,
  (name, v) ∈ l -> hi !! name = Some c ->
  get (foldl (assign hi) arr l) c = Some v.
Proof.
  intros Hinj. induction l as [|a l IH]; intros Hnd arr name v c Hin Hc.
  - inversion Hin.
  - rewrite fmap_cons in Hnd. apply NoDup_cons in Hnd as [Hnotin Hnd].
    apply elem_of_cons in Hin as [<-|Hin].
    + simpl. rewrite get_foldl_assign_other.
      * unfold assign; simpl. rewrite get_array_set, Hc.
        destruct (decide _); [reflexivity|congruence].
      * intros a' Ha' Heq. apply Hnotin.
        rewrite (Hinj _ _ _ Hc Heq). apply list_elem_of_fmap. eauto.
    + simpl. eapply IH; eassumption.
Qed.

Lemma owns_index_0_foldl_assign (hi : gmap string nat) (l : list (string * value)) :
  (forall name, hi !! name <> Some 0) ->
  forall arr, owns_index_0 arr = false ->
  owns_index_0 (foldl (assign hi) arr l) = false.
Proof.
  intros Hz. induction l as [|a l IH]; intros arr H; [exact H|]. simpl.
  apply IH. unfold assign. apply owns_index_0_array_set; [apply Hz|exact H].
Qed.

Lemma header_index_nonzero (headers : list (option string)) (name : string) :
  header_index headers !! name <> Some 0.
Proof. intros H. apply header_index_position in H as [H _]. lia. Qed.

(** Placement by name: the value assigned under a header text lands in
    the column the header index gives for that text. *)
Lemma rowValues_placed (headers : list (option string)) (runDate runTime : string)
    (rec : ProductRecord) (name : string) (v : value) (c : nat) :
  (name, v) ∈ assignments runDate runTime rec ->
  header_index headers !! name = Some c ->
  cells_of_array (rowValues (header_index headers) runDate runTime rec) !! c = Some v.
Proof.
  intros Hin Hc.
  rewrite rowValues_assignments by apply header_index_nonzero.
  rewrite cells_of_array_sparse
    by (apply owns_index_0_foldl_assign; [apply header_index_nonzero|reflexivity]).
  eapply get_foldl_assign; try eassumption.
  - apply header_index_injective.
  - unfold assignments; simpl.
    match goal with |- NoDup ?l => apply (bool_decide_unpack (NoDup l)) end.
    vm_compute. reflexivity.
Qed.

End Arrays.

(** ** The header step, the number format and the appended rows *)

Section HeaderStep.

Import ExcelJS Writer.

Lemma set_row_1 (cs : gmap nat value) : header_step (set_row 1 cs).
Proof.
  intros ws. split; [apply rowCount_set_row|].
  intros n Hn. simpl. rewrite lookup_insert_ne by congruence. reflexivity.
Qed.

Lemma getRow_1 : header_step (getRow 1).
Proof.
  intros ws. unfold getRow. destruct (rows ws !! 1) as [cs|] eqn:H1.
  - split; [|reflexivity].
    pose proof (last_number_ge (rows ws) 1 (ex_intro _ cs H1)).
    unfold rowCount. lia.
  - split; [apply (last_number_insert (rows ws))|].
    intros n Hn. simpl. rewrite lookup_insert_ne by congruence. reflexivity.
Qed.

Lemma header_step_compose (f g : worksheet -> worksheet) :
  header_step f -> header_step g -> header_step (fun ws => g (f ws)).
Proof.
  intros Hf Hg ws. destruct (Hf ws) as [Hf1 Hf2], (Hg (f ws)) as [Hg1 Hg2].
  split; [lia|]. intros n Hn. rewrite Hg2, Hf2 by exact Hn. reflexivity.
Qed.

Lemma set_columns_from_1 (defs : list column_def) :
  forall (n : nat) (ws : worksheet),
  (rowCount (set_columns_from n defs ws)
   = if defs is [] then rowCount ws else 1 `max` rowCount ws)
  /\ forall k, k <> 1 -> rows (set_columns_from n defs ws) !! k = rows ws !! k.
Proof.
  induction defs as [|d defs IH]; intros n ws; [split; reflexivity|].
  simpl. destruct (IH (S n)
    (set_cell 1 n (Text (header d))
       {| rows := rows ws; keys := set_key (key d) n (keys ws) |})) as [IH1 IH2].
  split.
  - rewrite IH1. unfold set_cell. rewrite rowCount_set_row.
    unfold rowCount; simpl. destruct defs; lia.
  - intros k Hk. rewrite IH2 by exact Hk. simpl.
    rewrite lookup_insert_ne by congruence. reflexivity.
Qed.

Lemma set_columns_1 : header_step (set_columns columnDefs).
Proof. intros ws. apply (set_columns_from_1 columnDefs 1 ws). Qed.

(** The sheet [writeExcel] leaves after its schema step. *)
Lemma reconcile_1 : header_step (fun ws => (reconcile ws).2).
Proof.
  intros ws. unfold reconcile.
  destruct (rowCount ws =? 0)%nat; [apply set_columns_1|].
  destruct (includes _ _); simpl; [apply getRow_1|].
  apply (header_step_compose (getRow 1) (set_row 1 _) getRow_1 (set_row_1 _)).
Qed.

Lemma enforce_header_1 : header_step enforce_header.
Proof.
  intros ws. unfold enforce_header.
  destruct (rowCount ws =? 0)%nat; [apply set_columns_1|].
  apply (header_step_compose (fun ws => set_row 1 _ (getRow 1 ws)) (set_columns columnDefs)).
  - apply (header_step_compose (getRow 1) (set_row 1 _) getRow_1 (set_row_1 _)).
  - apply set_columns_1.
Qed.

(** The number format creates null cells only. *)
Lemma shown_getCell (c : nat) (cs : gmap nat value) : shown (getCell c cs) = shown cs.
Proof.
  unfold getCell, shown. destruct (cs !! c) eqn:Hc; [reflexivity|].
  apply map_eq. intros k. rewrite !lookup_omap.
  destruct (decide (c = k)) as [->|Hne].
  - rewrite lookup_insert_eq, Hc. reflexivity.
  - rewrite lookup_insert_ne by exact Hne. reflexivity.
Qed.

Lemma rows_set_numFmt (c n : nat) (ws : worksheet) :
  rows (set_numFmt c ws) !! n
  = (fun cs => if hasValues cs then getCell c cs else cs) <$> rows ws !! n.
Proof. apply lookup_fmap. Qed.

Lemma rowCount_set_numFmt (c : nat) (ws : worksheet) :
  rowCount (set_numFmt c ws) = rowCount ws.
Proof. unfold rowCount, last_number, set_numFmt; simpl. rewrite dom_fmap_L. reflexivity. Qed.

Lemma shown_cells_set_numFmt (c n : nat) (ws : worksheet) :
  shown (cells n (set_numFmt c ws)) = shown (cells n ws).
Proof.
  unfold cells. rewrite rows_set_numFmt.
  destruct (rows ws !! n) as [cs|]; simpl; [|reflexivity].
  destruct (hasValues cs); [apply shown_getCell|reflexivity].
Qed.

Lemma header_step_values (f : worksheet -> worksheet) : header_step f -> values_step f.
Proof.
  intros Hf ws. destruct (Hf ws) as [Hc Hr]. split; [exact Hc|].
  intros n Hn. unfold cells. rewrite Hr by exact Hn. reflexivity.
Qed.

Lemma format_price_values (hi : gmap string nat) (ws : worksheet) :
  rowCount (format_price hi ws) = rowCount ws
  /\ keys (format_price hi ws) = keys ws
  /\ forall n, shown (cells n (format_price hi ws)) = shown (cells n ws).
Proof.
  unfold format_price. destruct (hi !! "PRICE") as [[|c]|]; try (repeat split; reflexivity).
  split; [apply rowCount_set_numFmt|]. split; [reflexivity|].
  intros n. apply shown_cells_set_numFmt.
Qed.

Lemma format_price_key_values (ws : worksheet) :
  rowCount (format_price_key ws) = rowCount ws
  /\ keys (format_price_key ws) = keys ws
  /\ forall n, shown (cells n (format_price_key ws)) = shown (cells n ws).
Proof.
  unfold format_price_key. destruct (key_column _ _) as [c|]; try (repeat split; reflexivity).
  split; [apply rowCount_set_numFmt|]. split; [reflexivity|].
  intros n. apply shown_cells_set_numFmt.
Qed.

Lemma prepared_values : values_step prepared.
Proof.
  intros ws. unfold prepared.
  destruct (format_price_values (header_index (reconcile ws).1) (reconcile ws).2)
    as (Hc & _ & Hv).
  destruct (header_step_values _ reconcile_1 ws) as [Hc' Hv'].
  split; [lia|]. intros n Hn. rewrite Hv. apply Hv', Hn.
Qed.

Lemma prepared_inline_values : values_step prepared_inline.
Proof.
  intros ws. unfold prepared_inline.
  destruct (format_price_key_values (enforce_header ws)) as (Hc & _ & Hv).
  destruct (header_step_values _ enforce_header_1 ws) as [Hc' Hv'].
  split; [lia|]. intros n Hn. rewrite Hv. apply Hv', Hn.
Qed.

(** The rows [writeExcel] appends, written as one [append_rows]. *)
Lemma writeExcel_appends (file : option (gmap nat (gmap nat value)))
    (records : list ProductRecord) (runDate runTime : string) :
  writeExcel file records runDate runTime
  = append_rows
      ((fun rec => cells_of_array
                     (rowValues (header_index (reconcile (open_sheet file)).1)
                        runDate runTime rec)) <$> records)
      (prepared (open_sheet file)).
Proof.
  unfold writeExcel, prepared, header_index.
  destruct (reconcile (open_sheet file)) as [headers ws]. simpl.
  generalize (format_price (index_headers 0 headers ∅) ws). clear ws.
  induction records as [|rec records IH]; intros ws; [reflexivity|].
  simpl. rewrite IH. reflexivity.
Qed.

Lemma addRow_object_appends (obj : ProductRecord -> list (string * value))
    (records : list ProductRecord) :
  forall ws,
  foldl (fun ws rec => addRow_object (obj rec) ws) ws records
  = append_rows ((fun rec => cells_of_object (keys ws) (obj rec)) <$> records) ws.
Proof.
  induction records as [|rec records IH]; intros ws; [reflexivity|].
  simpl. rewrite IH. reflexivity.
Qed.

Lemma writeExcel_inline_appends (file : option (gmap nat (gmap nat value)))
    (records : list ProductRecord) (runDate runTime : string) :
  writeExcel_inline file records runDate runTime
  = append_rows
      ((fun rec => cells_of_object (keys (enforce_header (open_sheet file)))
                     (rowObject runDate runTime rec)) <$> records)
      (prepared_inline (open_sheet file)).
Proof.
  unfold writeExcel_inline, prepared_inline.
  rewrite addRow_object_appends.
  destruct (format_price_key_values (enforce_header (open_sheet file))) as (_ & -> & _).
  reflexivity.
Qed.

Lemma cells_append_rows (css : list (gmap nat value)) (ws : worksheet) (n : nat) :
  n <= rowCount ws -> cells n (append_rows css ws) = cells n ws.
Proof.
  intros Hn. unfold cells. rewrite append_rows_lookup.
  destruct (decide _); [reflexivity|lia].
Qed.

(** A step followed by appended rows. *)
Lemma step_then_append (f : worksheet -> worksheet) (css : list (gmap nat value))
    (ws : worksheet) :
  values_step f ->
  rowCount (append_rows css (f ws)) = 1 `max` rowCount ws + length css
  /\ (forall n, 2 <= n -> n <= rowCount ws ->
        shown (cells n (append_rows css (f ws))) = shown (cells n ws))
  /\ (forall i, rows (append_rows css (f ws)) !! (1 `max` rowCount ws + 1 + i) = css !! i).
Proof.
  intros Hf. destruct (Hf ws) as [Hc Hr].
  split; [rewrite append_rows_rowCount, Hc; reflexivity|]. split.
  - intros n H2 Hn. rewrite cells_append_rows by lia. apply Hr. lia.
  - intros i. rewrite append_rows_lookup, Hc.
    destruct (decide _); [lia|]. f_equal. lia.
Qed.

End HeaderStep.

(** ** A workbook that does not exist yet *)

Section Fresh.

Import ExcelJS Writer.

Lemma fresh_sheet_rows : rows fresh_sheet = {[ 1 := header_cells ]}.
Proof. vm_compute. reflexivity. Qed.

Lemma fresh_sheet_keys :
  keys fresh_sheet =
    [ ("runDate", 1); ("runTime", 2); ("productName", 3); ("sku", 4);
      ("description", 5); ("mpn", 6); ("manufacturer", 7); ("price", 8);
      ("stock", 9); ("productUrl", 10) ].
Proof. vm_compute. reflexivity. Qed.

Lemma fresh_sheet_rowCount : rowCount fresh_sheet = 1.
Proof. vm_compute. reflexivity. Qed.

Lemma reconcile_absent :
  reconcile (open_sheet None) = (Some <$> defaultHeaders, fresh_sheet).
Proof. reflexivity. Qed.

Lemma reconcile_empty :
  reconcile (open_sheet (Some ∅)) = (Some <$> defaultHeaders, fresh_sheet).
Proof. reflexivity. Qed.

Lemma enforce_header_absent : enforce_header (open_sheet None) = fresh_sheet.
Proof. reflexivity. Qed.

Lemma enforce_header_empty : enforce_header (open_sheet (Some ∅)) = fresh_sheet.
Proof. reflexivity. Qed.

(** The number format finds the PRICE header cell in place and adds
    nothing to a new sheet. *)
Lemma prepared_absent : prepared (open_sheet None) = fresh_sheet.
Proof. vm_compute. reflexivity. Qed.

Lemma prepared_empty : prepared (open_sheet (Some ∅)) = fresh_sheet.
Proof. vm_compute. reflexivity. Qed.

Lemma prepared_inline_absent : prepared_inline (open_sheet None) = fresh_sheet.
Proof. vm_compute. reflexivity. Qed.

Lemma prepared_inline_empty : prepared_inline (open_sheet (Some ∅)) = fresh_sheet.
Proof. vm_compute. reflexivity. Qed.

(** Under the canonical headers both writers build the same row. *)
Lemma rowValues_canonical (runDate runTime : string) (rec : ProductRecord) :
  cells_of_array (rowValues (header_index (Some <$> defaultHeaders)) runDate runTime rec)
  = canonical_cells runDate runTime rec.
Proof.
  unfold rowValues, canonical_cells.
  generalize (or_null (productName rec)) (or_null (sku rec))
    (or_null (description rec)) (or_null (mpn rec)) (or_null (manufacturer rec))
    (price_cell (price rec)) (stock_cell (stock rec)).
  intros. vm_compute. reflexivity.
Qed.

Lemma rowObject_canonical (runDate runTime : string) (rec : ProductRecord) :
  cells_of_object (keys fresh_sheet) (rowObject runDate runTime rec)
  = canonical_cells runDate runTime rec.
Proof.
  rewrite fresh_sheet_keys. unfold rowObject, canonical_cells.
  generalize (or_null (productName rec)) (or_null (sku rec))
    (or_null (description rec)) (or_null (mpn rec)) (or_null (manufacturer rec))
    (price_cell (price rec)) (stock_cell (stock rec)).
  intros. vm_compute. reflexivity.
Qed.

End Fresh.

(** ** The writers *)

Section Writers.

Import ExcelJS Writer.

(** Claim C4. Writing [N] records when there is no workbook file gives a
    sheet with exactly the rows 1 to [N + 1]: row 1 is the header row and
    reads DATE, TIME, Item Name, SKU, DESCRIPTION, MPN, MANUFACTURER,
    PRICE, STOCK, PRODUCT URL in that order, and row [2 + i] is the row
    of the [i]-th record. *)
Theorem fresh_workbook_layout (records : list ProductRecord) (runDate runTime : string) :
  let ws := writeExcel None records runDate runTime in
  rowCount ws = 1 + length records
  /\ dom (rows ws) = set_seq 1 (1 + length records)
  /\ rows ws !! 1 = Some header_cells
  /\ drop 1 (row_values (cells 1 ws)) = (fun h => Elem (Text h)) <$> defaultHeaders
  /\ forall i, rows ws !! (2 + i) = canonical_cells runDate runTime <$> records !! i.
Proof.
  cbv zeta. rewrite writeExcel_appends, prepared_absent, reconcile_absent. cbn [fst].
  set (css := _ <$> records).
  assert (Hlen : length css = length records) by apply length_fmap.
  assert (Hcss : forall i, css !! i = canonical_cells runDate runTime <$> records !! i).
  { intros i. unfold css. rewrite list_lookup_fmap.
    destruct (records !! i); simpl; [rewrite rowValues_canonical|]; reflexivity. }
  clearbody css.
  assert (Hrow1 : rows (append_rows css fresh_sheet) !! 1 = Some header_cells).
  { rewrite append_rows_lookup, fresh_sheet_rowCount, fresh_sheet_rows.
    destruct (decide (1 <= 1)); [|lia]. apply lookup_singleton_eq. }
  split; [rewrite append_rows_rowCount, fresh_sheet_rowCount, Hlen; reflexivity|].
  split.
  { apply set_eq. intros n.
    rewrite elem_of_dom, elem_of_set_seq, append_rows_lookup,
      fresh_sheet_rowCount, fresh_sheet_rows.
    destruct (decide (n <= 1)) as [Hle|Hgt].
    - destruct (decide (n = 1)) as [->|Hne].
      + rewrite lookup_singleton_eq. split; [lia|eauto].
      + rewrite lookup_singleton_ne by congruence.
        split; [intros [? [=]]|lia].
    - rewrite lookup_lt_is_Some, Hlen. lia. }
  split; [exact Hrow1|].
  split.
  { unfold cells. rewrite Hrow1. vm_compute. reflexivity. }
  intros i. rewrite append_rows_lookup, fresh_sheet_rowCount.
  destruct (decide (2 + i <= 1)); [lia|].
  replace (2 + i - 1 - 1) with i by lia. apply Hcss.
Qed.

(** Claim C5. An append run on a workbook, whatever an earlier run left
    in it, is cumulative, with either writer: the number of rows below
    the header grows by the number of records of the batch, every row
    below the header that was there keeps its values, and each record of
    the batch gets a row of its own after them. *)
Theorem appending_is_cumulative (file : option (gmap nat (gmap nat value)))
    (records : list ProductRecord) (runDate runTime : string) (after : worksheet) :
  after = writeExcel file records runDate runTime
  \/ after = writeExcel_inline file records runDate runTime ->
  let before := open_sheet file in
  rowCount after - 1 = (rowCount before - 1) + length records
  /\ (forall n, 2 <= n -> n <= rowCount before ->
        shown (cells n after) = shown (cells n before)
        /\ row_values (cells n after) = row_values (cells n before))
  /\ (forall i, i < length records ->
        is_Some (rows after !! (1 `max` rowCount before + 1 + i))).
Proof.
  intros [-> | ->]; cbv zeta.
  - rewrite writeExcel_appends.
    destruct (step_then_append prepared
                ((fun rec => cells_of_array
                    (rowValues (header_index (reconcile (open_sheet file)).1)
                       runDate runTime rec)) <$> records)
                (open_sheet file) prepared_values) as (Hc & Hold & Hnew).
    rewrite length_fmap in Hc.
    split; [lia|]. split.
    + intros n H2 Hn. pose proof (Hold n H2 Hn) as Hs. split; [exact Hs|].
      unfold row_values. unfold shown in Hs. rewrite Hs. reflexivity.
    + intros i Hi. rewrite Hnew. apply lookup_lt_is_Some. rewrite length_fmap. exact Hi.
  - rewrite writeExcel_inline_appends.
    destruct (step_then_append prepared_inline
                ((fun rec => cells_of_object (keys (enforce_header (open_sheet file)))
                    (rowObject runDate runTime rec)) <$> records)
                (open_sheet file) prepared_inline_values) as (Hc & Hold & Hnew).
    rewrite length_fmap in Hc.
    split; [lia|]. split.
    + intros n H2 Hn. pose proof (Hold n H2 Hn) as Hs. split; [exact Hs|].
      unfold row_values. unfold shown in Hs. rewrite Hs. reflexivity.
    + intros i Hi. rewrite Hnew. apply lookup_lt_is_Some. rewrite length_fmap. exact Hi.
Qed.

Lemma appending_is_cumulative_witness :
  let run1 := writeExcel None [sample_record] "11/02/2026" "10:00 AM PST" in
  let after :=
    writeExcel (Some (rows run1)) [sample_record; sample_record]
      "11/03/2026" "09:00 AM PST" in
  let before := open_sheet (Some (rows run1)) in
  rowCount after - 1 = (rowCount before - 1) + 2
  /\ (forall n, 2 <= n -> n <= rowCount before ->
        shown (cells n after) = shown (cells n before)
        /\ row_values (cells n after) = row_values (cells n before))
  /\ (forall i, i < 2 -> is_Some (rows after !! (1 `max` rowCount before + 1 + i))).
Proof.
  cbv zeta.
  apply (appending_is_cumulative
           (Some (rows (writeExcel None [sample_record] "11/02/2026" "10:00 AM PST")))
           [sample_record; sample_record] "11/03/2026" "09:00 AM PST").
  left. reflexivity.
Defined.


Lemma set_columns_from_keys (defs : list column_def) :
  forall (n : nat) (ws ws' : worksheet),
  keys ws = keys ws' ->
  keys (set_columns_from n defs ws) = keys (set_columns_from n defs ws').
Proof.
  induction defs as [|d defs IH]; intros n ws ws' H; [exact H|].
  simpl. apply IH. simpl. rewrite H. reflexivity.
Qed.

(** The inline writer always works with the canonical column keys. *)
Lemma enforce_header_keys (file : option (gmap nat (gmap nat value))) :
  keys (enforce_header (open_sheet file)) = keys fresh_sheet.
Proof.
  unfold enforce_header, fresh_sheet, set_columns.
  destruct (rowCount (open_sheet file) =? 0)%nat;
    apply set_columns_from_keys; unfold getRow;
    try destruct (rows (open_sheet file) !! 1); reflexivity.
Qed.



(** *** Schema growth *)

Lemma cells_getRow (n k : nat) (ws : worksheet) : cells k (getRow n ws) = cells k ws.
Proof.
  unfold getRow, cells. destruct (rows ws !! n) eqn:Hn; [reflexivity|]. simpl.
  destruct (decide (n = k)) as [->|Hne].
  - rewrite lookup_insert_eq, Hn. reflexivity.
  - rewrite lookup_insert_ne by exact Hne. reflexivity.
Qed.

Lemma reconcile_populated (ws : worksheet) :
  rowCount ws <> 0 ->
  reconcile ws =
    if includes "MANUFACTURER" (existing_headers ws)
    then (existing_headers ws, getRow 1 ws)
    else ((existing_headers ws ++ [Some "MANUFACTURER"])%list,
          set_row 1
            (cells_of_array
               (Undefined :: (spread <$> (existing_headers ws ++ [Some "MANUFACTURER"])%list)))
            (getRow 1 ws)).
Proof.
  intros H. unfold reconcile, existing_headers.
  destruct (Nat.eqb_spec (rowCount ws) 0) as [Heq|_]; [contradiction|].
  rewrite cells_getRow. reflexivity.
Qed.

Lemma get_foldl_assign_source (hi : gmap string nat) (l : list (string * value))
    (c : nat) (v : value) :
  forall arr,
  get (foldl (assign hi) arr l) c = Some v ->
  get arr c = Some v \/ exists name, (name, v) ∈ l /\ hi !! name = Some c.
Proof.
  induction l as [|a l IH]; intros arr H; [left; exact H|]. simpl in H.
  apply IH in H as [H|(name & Hin & Hc)].
  - unfold assign in H. rewrite get_array_set in H.
    destruct (decide _) as [Heq|]; [|left; exact H].
    injection H as <-. right. exists a.1. split; [|exact Heq].
    destruct a; left.
  - right. exists name. split; [right; exact Hin|exact Hc].
Qed.

(** Every cell of an appended row was assigned under a header text that
    has a column. *)
Lemma rowValues_source (headers : list (option string)) (runDate runTime : string)
    (rec : ProductRecord) (c : nat) (v : value) :
  cells_of_array (rowValues (header_index headers) runDate runTime rec) !! c = Some v ->
  exists name, (name, v) ∈ assignments runDate runTime rec
               /\ header_index headers !! name = Some c.
Proof.
  rewrite rowValues_assignments by apply header_index_nonzero.
  rewrite cells_of_array_sparse
    by (apply owns_index_0_foldl_assign; [apply header_index_nonzero|reflexivity]).
  intros H. apply get_foldl_assign_source in H as [H|H]; [discriminate|exact H].
Qed.




(** *** The two writers side by side *)

(** Claim C3, as stated, fails here: [writeExcel] puts the price of the
    new row under PRICE, in column 7, and the inline writer puts the
    manufacturer there and overwrites the header row. *)
Lemma writers_differ_on_reordered_header :
  let a := writeExcel (Some workbook_manufacturer_last) [sample_record]
             "11/02/2026" "10:00 AM PST" in
  let b := writeExcel_inline (Some workbook_manufacturer_last) [sample_record]
             "11/02/2026" "10:00 AM PST" in
  rows a !! 3 ≫= (.!! 7) = Some (Num (S754_finite false 5429652300748554 (-42)))
  /\ rows b !! 3 ≫= (.!! 7) = Some (Text "Bluestar")
  /\ rows a !! 1 ≫= (.!! 7) = Some (Text "PRICE")
  /\ rows b !! 1 ≫= (.!! 7) = Some (Text "MANUFACTURER")
  /\ rows a <> rows b.
Proof.
  cbv zeta. repeat split; try (vm_compute; reflexivity).
  intros H.
  apply (f_equal (fun m : gmap nat (gmap nat value) => m !! 3 ≫= (.!! 7))) in H.
  vm_compute in H. discriminate.
Qed.

Lemma row_values_rowCount (ws : worksheet) (arr : list slot) :
  row_values (cells 1 ws) = arr -> arr <> [] -> rowCount ws <> 0.
Proof.
  intros H Harr Hz. apply Harr. rewrite <- H.
  unfold cells. rewrite (lookup_above_last (rows ws) 1) by (unfold rowCount in Hz; lia).
  reflexivity.
Qed.

(** Claim C3, as the code has it. The two writers write the same rows
    when there is no workbook or an empty one. On a workbook whose
    header row reads exactly the canonical texts in the canonical order
    they write the same rows below the header and count the same number
    of rows. *)
Theorem writers_agree_on_canonical_header
    (file : option (gmap nat (gmap nat value))) (records : list ProductRecord)
    (runDate runTime : string) :
  let a := writeExcel file records runDate runTime in
  let b := writeExcel_inline file records runDate runTime in
  (file = None \/ file = Some ∅ -> rows a = rows b)
  /\ (row_values (cells 1 (open_sheet file))
        = Hole :: ((fun h => Elem (Text h)) <$> defaultHeaders) ->
      rowCount a = rowCount b
      /\ forall n, 2 <= n -> rows a !! n = rows b !! n).
Proof.
  cbv zeta. rewrite writeExcel_appends, writeExcel_inline_appends, enforce_header_keys.
  assert (Hcss : (fun rec => cells_of_array
                    (rowValues (header_index (Some <$> defaultHeaders)) runDate runTime rec))
                 <$> records
                 = (fun rec => cells_of_object (keys fresh_sheet)
                      (rowObject runDate runTime rec)) <$> records).
  { apply list_fmap_ext. intros _ rec _.
    rewrite rowValues_canonical, rowObject_canonical. reflexivity. }
  split.
  - intros [-> | ->].
    + rewrite prepared_absent, prepared_inline_absent, reconcile_absent. cbn [fst].
      rewrite Hcss. reflexivity.
    + rewrite prepared_empty, prepared_inline_empty, reconcile_empty. cbn [fst].
      rewrite Hcss. reflexivity.
  - intros Hhead.
    assert (Hpop : rowCount (open_sheet file) <> 0)
      by (apply (row_values_rowCount _ _ Hhead); discriminate).
    assert (Hrec : reconcile (open_sheet file)
                   = (Some <$> defaultHeaders, getRow 1 (open_sheet file))).
    { rewrite (reconcile_populated _ Hpop). unfold existing_headers.
      rewrite Hhead. reflexivity. }
    assert (Hpa : prepared (open_sheet file) = set_numFmt 8 (getRow 1 (open_sheet file))).
    { unfold prepared. rewrite Hrec. reflexivity. }
    assert (Hpb : prepared_inline (open_sheet file)
                  = set_numFmt 8 (enforce_header (open_sheet file))).
    { unfold prepared_inline, format_price_key. rewrite enforce_header_keys. reflexivity. }
    rewrite Hpa, Hpb, Hrec. cbn [fst]. rewrite Hcss.
    destruct (getRow_1 (open_sheet file)) as [Hc1 Hr1].
    destruct (enforce_header_1 (open_sheet file)) as [Hc2 Hr2].
    split; [rewrite !append_rows_rowCount, !rowCount_set_numFmt; lia|].
    intros n Hn. rewrite !append_rows_lookup, !rowCount_set_numFmt, Hc1, Hc2.
    destruct (decide _); [|reflexivity].
    rewrite !rows_set_numFmt, Hr1, Hr2 by lia. reflexivity.
Qed.

Lemma writers_agree_on_canonical_header_witness :
  rows (writeExcel None [sample_record] "11/02/2026" "10:00 AM PST")
  = rows (writeExcel_inline None [sample_record] "11/02/2026" "10:00 AM PST")
  /\ (rowCount (writeExcel (Some workbook_after_first_run) [sample_record]
                  "11/02/2026" "10:00 AM PST")
      = rowCount (writeExcel_inline (Some workbook_after_first_run) [sample_record]
                    "11/02/2026" "10:00 AM PST")
      /\ forall n, 2 <= n ->
           rows (writeExcel (Some workbook_after_first_run) [sample_record]
                   "11/02/2026" "10:00 AM PST") !! n
           = rows (writeExcel_inline (Some workbook_after_first_run) [sample_record]
                     "11/02/2026" "10:00 AM PST") !! n).
Proof.
  split.
  - apply (proj1 (writers_agree_on_canonical_header None [sample_record]
                    "11/02/2026" "10:00 AM PST")).
    left. reflexivity.
  - apply (proj2 (writers_agree_on_canonical_header (Some workbook_after_first_run)
                    [sample_record] "11/02/2026" "10:00 AM PST")).
    vm_compute. reflexivity.
Defined.

(** Where [writeExcel] rewrites the header row, the array it assigns is
    [[undefined, ...headers]], which owns index 0: the row setter takes
    it for a contiguous array and the header texts land one column to
    the right of the columns the rows are placed by. *)
Example rewritten_header_is_shifted :
  let after := writeExcel (Some workbook_without_manufacturer) [sample_record]
                 "11/02/2026" "10:00 AM PST" in
  (reconcile (open_sheet (Some workbook_without_manufacturer))).1 !! 9
    = Some (Some "MANUFACTURER")
  /\ rows after !! 3 ≫= (.!! 10) = Some (Text "Bluestar")
  /\ rows after !! 1 ≫= (.!! 10) = Some (Text "PRODUCT URL")
  /\ rows after !! 1 ≫= (.!! 11) = Some (Text "MANUFACTURER")
  /\ rows after !! 1 ≫= (.!! 1) = None.
Proof. cbv zeta. repeat split; vm_compute; reflexivity. Qed.

End Writers.

(** * Further properties *)

(** ** Sets of URLs *)

Section UrlSets.

Import Scrape.

Lemma elem_of_add_all (xs : list string) :
  forall (set : list string) (x : string),
  x ∈ add_all set xs <-> x ∈ set \/ x ∈ xs.
Proof.
  induction xs as [|y xs IH]; intros set x; simpl.
  - rewrite elem_of_nil. tauto.
  - rewrite IH, elem_of_cons. case_bool_decide as Hy.
    + split; [tauto|]. intros [H|[->|H]]; tauto.
    + rewrite elem_of_app, list_elem_of_singleton. tauto.
Qed.

Lemma NoDup_add_all (xs : list string) :
  forall set : list string, NoDup set -> NoDup (add_all set xs).
Proof.
  induction xs as [|y xs IH]; intros set H; simpl; [exact H|].
  apply IH. case_bool_decide as Hy; [exact H|].
  apply NoDup_app. split; [exact H|]. split.
  - intros x Hx Hx'. apply list_elem_of_singleton in Hx'. subst x. contradiction.
  - apply NoDup_singleton.
Qed.

(** Adding never moves what is in the set. *)
Lemma add_all_prefix (xs : list string) :
  forall set : list string, exists added, add_all set xs = (set ++ added)%list.
Proof.
  induction xs as [|y xs IH]; intros set; simpl.
  - exists []. rewrite app_nil_r. reflexivity.
  - case_bool_decide as Hy; [apply IH|].
    destruct (IH (set ++ [y])%list) as [added ->].
    exists (y :: added). rewrite <- app_assoc. reflexivity.
Qed.

Lemma add_all_app (xs ys : list string) :
  forall set : list string, add_all set (xs ++ ys) = add_all (add_all set xs) ys.
Proof.
  induction xs as [|x xs IH]; intros set; [reflexivity|]. simpl. apply IH.
Qed.

Lemma add_all_new_bounded (n : nat) :
  forall (xs set : list string),
  length xs <= n ->
  add_all set xs = (set ++ unique (filter (fun y => y ∉ set) xs))%list.
Proof.
  unfold unique.
  induction n as [|n IH]; intros xs set Hn.
  - destruct xs; [|simpl in Hn; lia]. simpl. rewrite app_nil_r. reflexivity.
  - destruct xs as [|y xs]; [simpl; rewrite app_nil_r; reflexivity|].
    simpl in Hn. simpl. case_bool_decide as Hy.
    + rewrite filter_cons_False by tauto. apply IH. lia.
    + rewrite filter_cons_True by exact Hy.
      change (add_all [] (y :: filter (fun y0 => y0 ∉ set) xs))
        with (add_all [y] (filter (fun y0 => y0 ∉ set) xs)).
      rewrite (IH xs) by lia.
      rewrite (IH (filter (fun y0 => y0 ∉ set) xs) [y])
        by (pose proof (length_filter (fun y0 => y0 ∉ set) xs); lia).
      rewrite <- app_assoc. simpl.
      do 3 f_equal. rewrite list_filter_filter. apply list_filter_iff.
      intros x. rewrite elem_of_app, !list_elem_of_singleton. tauto.
Qed.

(** What is added to a set are the new elements, as a set of their
    own. *)
Lemma add_all_new (xs set : list string) :
  add_all set xs = (set ++ unique (filter (fun y => y ∉ set) xs))%list.
Proof. apply (add_all_new_bounded (length xs)). lia. Qed.

Lemma add_all_NoDup_id (xs : list string) :
  forall set : list string,
  NoDup (set ++ xs) -> add_all set xs = (set ++ xs)%list.
Proof.
  induction xs as [|y xs IH]; intros set H; simpl.
  - rewrite app_nil_r. reflexivity.
  - apply NoDup_app in H as H'. destruct H' as (_ & Hdisj & _).
    case_bool_decide as Hy.
    + exfalso. apply (Hdisj y Hy). left.
    + rewrite IH by (rewrite <- app_assoc; exact H).
      rewrite <- app_assoc. reflexivity.
Qed.

Lemma unique_NoDup (xs : list string) : NoDup (unique xs).
Proof. apply NoDup_add_all, NoDup_nil_2. Qed.

Lemma elem_of_unique (xs : list string) (y : string) : y ∈ unique xs <-> y ∈ xs.
Proof. unfold unique. rewrite elem_of_add_all, elem_of_nil. tauto. Qed.

Lemma unique_idemp (xs : list string) : unique (unique xs) = unique xs.
Proof.
  unfold unique at 1. apply (add_all_NoDup_id (unique xs) []).
  simpl. apply unique_NoDup.
Qed.

(** [Array.from(new Set(xs))] has each element of [xs] once, at the
    place of its first occurrence: the first element stays first and
    the rest is the set of the other elements; a list without
    duplicates is returned as it is; the set of two lists one after the
    other is the set of the first with the second added. *)
Theorem unique_keeps_first_occurrences (x : string) (xs ys : list string) :
  NoDup (unique xs)
  /\ (forall y, y ∈ unique xs <-> y ∈ xs)
  /\ unique (x :: xs) = x :: unique (filter (fun y => y <> x) xs)
  /\ unique (xs ++ ys) = add_all (unique xs) ys
  /\ unique (unique xs) = unique xs.
Proof.
  split; [apply unique_NoDup|].
  split; [intros y; apply elem_of_unique|].
  split.
  { change (unique (x :: xs)) with (add_all [x] xs).
    rewrite add_all_new. simpl. f_equal. f_equal.
    apply list_filter_iff. intros y. rewrite list_elem_of_singleton. tauto. }
  split; [apply add_all_app|apply unique_idemp].
Qed.

End UrlSets.

(** ** Collecting the product URLs *)

Section Collecting.

Import Scrape.

Variable parse_url : string -> option url.

Lemma elem_of_default_unique (o : option (list string)) (u : string) :
  u ∈ default [] (unique <$> o) <-> u ∈ default [] o.
Proof. destruct o as [l|]; simpl; [apply elem_of_unique|reflexivity]. Qed.

Lemma unique_default_unique (o : option (list string)) :
  unique (default [] (unique <$> o)) = unique (default [] o).
Proof. destruct o as [l|]; simpl; [apply unique_idemp|reflexivity]. Qed.

Lemma elem_of_filter_bool (f : string -> bool) (l : list string) (u : string) :
  u ∈ List.filter f l <-> u ∈ l /\ f u = true.
Proof. rewrite !list_elem_of_In. apply filter_In. Qed.

Lemma collect_links_spec (pg : listing) (urls : list string) :
  collect_links parse_url pg = Some urls ->
  NoDup urls
  /\ (forall u, u ∈ urls <->
        u ∈ default [] (title_hrefs pg)
        \/ u ∈ default [] (image_hrefs pg)
        \/ exists hrefs, all_hrefs pg = Some hrefs /\ u ∈ hrefs
                         /\ by_heuristic parse_url u = true)
  /\ exists others, urls = (unique (default [] (title_hrefs pg)) ++ others)%list.
Proof.
  unfold collect_links. destruct (all_hrefs pg) as [hrefs|]; [|discriminate].
  intros [= <-]. split; [apply unique_NoDup|]. split.
  - intros u. rewrite elem_of_unique, !elem_of_app, !elem_of_default_unique.
    rewrite elem_of_filter_bool, elem_of_unique.
    split.
    + intros [H|[H|[H Hh]]]; eauto 6.
    + intros [H|[H|(hrefs' & [= <-] & H & Hh)]]; tauto.
  - unfold unique at 1. rewrite add_all_app.
    fold (unique (default [] (unique <$> title_hrefs pg))).
    rewrite unique_default_unique. apply add_all_prefix.
Qed.


Lemma collect_pages_spec (site : string -> listing) (count : nat) :
  forall (first : nat) (acc all : list string),
  collect_pages parse_url site first count acc = Some all ->
  (NoDup acc -> NoDup all)
  /\ (exists added, all = (acc ++ added)%list)
  /\ (forall i, first <= i < first + count ->
        is_Some (collectProductUrlsForPage parse_url (site (search_url i))))
  /\ (forall u, u ∈ all <->
        u ∈ acc
        \/ exists i l, first <= i < first + count
                       /\ collectProductUrlsForPage parse_url (site (search_url i)) = Some l
                       /\ u ∈ l).
Proof.
  induction count as [|count IH]; intros first acc all H; simpl in H.
  - injection H as <-. split; [tauto|]. split; [exists []; rewrite app_nil_r; reflexivity|].
    split; [intros i Hi; lia|].
    intros u. split; [tauto|]. intros [Hu|(i & l & Hi & _)]; [exact Hu|lia].
  - destruct (collectProductUrlsForPage parse_url (site (search_url first)))
      as [urls|] eqn:Hfirst; [|discriminate].
    apply IH in H as (Hnd & [added Hadd] & Hres & Hin).
    split; [intros Hacc; apply Hnd, NoDup_add_all, Hacc|].
    split.
    { destruct (add_all_prefix urls acc) as [added' Hadd'].
      exists (added' ++ added)%list. rewrite Hadd, Hadd', <- app_assoc. reflexivity. }
    split.
    { intros i Hi. destruct (decide (i = first)) as [->|Hne].
      - rewrite Hfirst. eauto.
      - apply Hres. lia. }
    intros u. rewrite Hin, elem_of_add_all. split.
    + intros [[Hu|Hu]|(i & l & Hi & Hl & Hu)].
      * left. exact Hu.
      * right. exists first, urls. split; [lia|]. split; [exact Hfirst|exact Hu].
      * right. exists i, l. split; [lia|]. split; [exact Hl|exact Hu].
    + intros [Hu|(i & l & Hi & Hl & Hu)]; [tauto|].
      destruct (decide (i = first)) as [->|Hne].
      * rewrite Hfirst in Hl. injection Hl as <-. tauto.
      * right. exists i, l. split; [lia|]. split; [exact Hl|exact Hu].
Qed.

Lemma visit_all_spec (visit : string -> option page_view) (urls : list string) :
  forall results,
  visit_all visit urls = Some results <-> Forall2 (scraped_from visit) urls results.
Proof.
  induction urls as [|u urls IH]; intros results; simpl.
  - split; [intros [= <-]; constructor|]. intros H. inversion H. reflexivity.
  - destruct (visit u) as [view|] eqn:Hu.
    + destruct (visit_all visit urls) as [rs|].
      * split.
        -- intros [= <-]. constructor; [exists view; auto|]. apply IH. reflexivity.
        -- intros H. inversion H as [|? r ? rs' (view' & Hv & ->) Hrest]; subst.
           rewrite Hu in Hv. injection Hv as <-.
           apply IH in Hrest. injection Hrest as <-. reflexivity.
      * split; [discriminate|].
        intros H. inversion H as [|? r ? rs' _ Hrest]; subst.
        apply IH in Hrest. discriminate.
    + split; [discriminate|].
      intros H. inversion H as [|? r ? rs' (view' & Hv & _) _]; subst. congruence.
Qed.

Lemma rowCount_writeExcel (file : option (gmap nat (gmap nat value)))
    (records : list ProductRecord) (runDate runTime : string) :
  rowCount (writeExcel file records runDate runTime)
  = 1 `max` rowCount (open_sheet file) + length records.
Proof.
  rewrite writeExcel_appends.
  destruct (step_then_append prepared
              ((fun rec => cells_of_array
                  (rowValues (header_index (reconcile (open_sheet file)).1)
                     runDate runTime rec)) <$> records)
              (open_sheet file) prepared_values) as (Hc & _ & _).
  rewrite Hc, length_fmap. reflexivity.
Qed.

Lemma rowCount_writeExcel_inline (file : option (gmap nat (gmap nat value)))
    (records : list ProductRecord) (runDate runTime : string) :
  rowCount (writeExcel_inline file records runDate runTime)
  = 1 `max` rowCount (open_sheet file) + length records.
Proof.
  rewrite writeExcel_inline_appends.
  destruct (step_then_append prepared_inline
              ((fun rec => cells_of_object (keys (enforce_header (open_sheet file)))
                  (rowObject runDate runTime rec)) <$> records)
              (open_sheet file) prepared_inline_values) as (Hc & _ & _).
  rewrite Hc, length_fmap. reflexivity.
Qed.

(** A run of the test of bluestar_all.spec.ts that saves its products
    has saved, without duplicates, exactly the URLs that the collector
    returned for one of the pages 1 to 7; it has one record per saved
    URL, in the same order, each read from the page of its URL; the
    workbook is written from these records and gets one row for each;
    and the test passes exactly when there is at least one URL. *)
Theorem test_all_outcome (site : string -> listing)
    (visit : string -> option page_view)
    (file : option (gmap nat (gmap nat value))) (runDate runTime : string)
    (results : list ProductRecord) :
  let r := test_all parse_url site visit file runDate runTime in
  saved_products r = Some results ->
  exists urls,
    saved_urls r = Some urls
    /\ NoDup urls
    /\ (forall u, u ∈ urls <->
          exists i l, 1 <= i <= TOTAL_PAGES
                      /\ collectProductUrlsForPage parse_url (site (search_url i)) = Some l
                      /\ u ∈ l)
    /\ Forall2 (scraped_from visit) urls results
    /\ written r = Some (writeExcel file results runDate runTime)
    /\ rowCount (writeExcel file results runDate runTime)
       = 1 `max` rowCount (open_sheet file) + length urls
    /\ (passed r = true <-> urls <> []).
Proof.
  cbv zeta. unfold test_all.
  destruct (collect_pages parse_url site 1 TOTAL_PAGES []) as [urls|] eqn:Hpages;
    [|discriminate].
  destruct (visit_all visit urls) as [rs|] eqn:Hvisit; [|discriminate].
  simpl. intros [= ->]. exists urls.
  apply collect_pages_spec in Hpages as (Hnd & _ & _ & Hin).
  apply visit_all_spec in Hvisit.
  pose proof (Forall2_length _ _ _ Hvisit) as Hlen.
  split; [reflexivity|]. split; [apply Hnd, NoDup_nil_2|]. split.
  { intros u. rewrite Hin, elem_of_nil. unfold TOTAL_PAGES. split.
    - intros [[]|(i & l & Hi & H)]. exists i, l. split; [lia|exact H].
    - intros (i & l & Hi & H). right. exists i, l. split; [lia|exact H]. }
  split; [exact Hvisit|]. split; [reflexivity|].
  split; [rewrite rowCount_writeExcel; lia|].
  rewrite Nat.ltb_lt, <- Hlen. destruct urls; simpl; split; try lia; congruence.
Qed.

(** The same for the test of bluestar.spec.ts, whose URLs are those of
    the first search page and whose workbook is written by the inline
    writer; it passes exactly when there is at least one URL and no
    product page reported an empty URL. *)
Theorem test_page1_outcome (site : string -> listing)
    (visit : string -> option page_view)
    (file : option (gmap nat (gmap nat value))) (runDate runTime : string)
    (results : list ProductRecord) :
  let r := test_page1 parse_url site visit file runDate runTime in
  saved_products r = Some results ->
  exists urls,
    saved_urls r = Some urls
    /\ collectFirstPageProductUrls parse_url (site SEARCH_URL_BASE) = Some urls
    /\ NoDup urls
    /\ Forall2 (scraped_from visit) urls results
    /\ written r = Some (writeExcel_inline file results runDate runTime)
    /\ rowCount (writeExcel_inline file results runDate runTime)
       = 1 `max` rowCount (open_sheet file) + length urls
    /\ (passed r = true <->
          urls <> [] /\ forall rec, rec ∈ results -> productUrl rec <> "").
Proof.
  cbv zeta. unfold test_page1.
  destruct (collectFirstPageProductUrls parse_url (site SEARCH_URL_BASE))
    as [urls|] eqn:Hpage; [|discriminate].
  destruct (visit_all visit urls) as [rs|] eqn:Hvisit; [|discriminate].
  simpl. intros [= ->]. exists urls.
  apply visit_all_spec in Hvisit.
  pose proof (Forall2_length _ _ _ Hvisit) as Hlen.
  split; [reflexivity|]. split; [reflexivity|]. split.
  { pose proof Hpage as Hlinks. unfold collectFirstPageProductUrls in Hlinks.
    destruct (goto_resolves _ && load_resolves _); [|discriminate].
    apply collect_links_spec in Hlinks as [H _]. exact H. }
  split; [exact Hvisit|]. split; [reflexivity|].
  split; [rewrite rowCount_writeExcel_inline; lia|].
  rewrite andb_true_iff, Nat.ltb_lt, forallb_forall, <- Hlen.
  assert (Hne : 0 < length urls <-> urls <> [])
    by (destruct urls; simpl; split; try lia; congruence).
  rewrite Hne. apply and_iff_compat_l. split.
  - intros H rec Hrec Hempty. apply list_elem_of_In, H in Hrec.
    rewrite Hempty in Hrec. discriminate.
  - intros H rec Hrec. apply list_elem_of_In, H in Hrec.
    destruct (productUrl rec); [contradiction|reflexivity].
Qed.

End Collecting.

Section Runs.

Import Scrape.


Lemma test_all_outcome_witness :
  exists urls,
    saved_urls (test_all shop_url (fun _ => sample_listing) (fun u => Some (sample_view u))
                  None "11/02/2026" "10:00 AM PST") = Some urls
    /\ NoDup urls
    /\ (forall u, u ∈ urls <->
          exists i l, 1 <= i <= TOTAL_PAGES
                      /\ collectProductUrlsForPage shop_url sample_listing = Some l
                      /\ u ∈ l)
    /\ Forall2 (scraped_from (fun u => Some (sample_view u))) urls
         (extractProductDetails <$>
            [ sample_view "https://www.medstatsupplies.com/bluestar-kit";
              sample_view "https://www.medstatsupplies.com/bluestar-refill";
              sample_view "https://www.medstatsupplies.com/product/bluestar-kit" ])
    /\ written (test_all shop_url (fun _ => sample_listing) (fun u => Some (sample_view u))
                  None "11/02/2026" "10:00 AM PST")
       = Some (writeExcel None
                 (extractProductDetails <$>
                    [ sample_view "https://www.medstatsupplies.com/bluestar-kit";
                      sample_view "https://www.medstatsupplies.com/bluestar-refill";
                      sample_view "https://www.medstatsupplies.com/product/bluestar-kit" ])
                 "11/02/2026" "10:00 AM PST")
    /\ rowCount (writeExcel None
                   (extractProductDetails <$>
                      [ sample_view "https://www.medstatsupplies.com/bluestar-kit";
                        sample_view "https://www.medstatsupplies.com/bluestar-refill";
                        sample_view "https://www.medstatsupplies.com/product/bluestar-kit" ])
                   "11/02/2026" "10:00 AM PST")
       = 1 `max` rowCount (open_sheet None) + length urls
    /\ (passed (test_all shop_url (fun _ => sample_listing) (fun u => Some (sample_view u))
                  None "11/02/2026" "10:00 AM PST") = true <-> urls <> []).
Proof.
  apply (test_all_outcome shop_url (fun _ => sample_listing) (fun u => Some (sample_view u))
           None "11/02/2026" "10:00 AM PST").
  vm_compute. reflexivity.
Defined.

Lemma test_page1_outcome_witness :
  exists urls,
    saved_urls (test_page1 shop_url (fun _ => sample_listing) (fun u => Some (sample_view u))
                  None "11/02/2026" "10:00 AM PST") = Some urls
    /\ collectFirstPageProductUrls shop_url sample_listing = Some urls
    /\ NoDup urls
    /\ Forall2 (scraped_from (fun u => Some (sample_view u))) urls
         (extractProductDetails <$>
            [ sample_view "https://www.medstatsupplies.com/bluestar-kit";
              sample_view "https://www.medstatsupplies.com/bluestar-refill";
              sample_view "https://www.medstatsupplies.com/product/bluestar-kit" ])
    /\ written (test_page1 shop_url (fun _ => sample_listing)
                  (fun u => Some (sample_view u)) None "11/02/2026" "10:00 AM PST")
       = Some (writeExcel_inline None
                 (extractProductDetails <$>
                    [ sample_view "https://www.medstatsupplies.com/bluestar-kit";
                      sample_view "https://www.medstatsupplies.com/bluestar-refill";
                      sample_view "https://www.medstatsupplies.com/product/bluestar-kit" ])
                 "11/02/2026" "10:00 AM PST")
    /\ rowCount (writeExcel_inline None
                   (extractProductDetails <$>
                      [ sample_view "https://www.medstatsupplies.com/bluestar-kit";
                        sample_view "https://www.medstatsupplies.com/bluestar-refill";
                        sample_view "https://www.medstatsupplies.com/product/bluestar-kit" ])
                   "11/02/2026" "10:00 AM PST")
       = 1 `max` rowCount (open_sheet None) + length urls
    /\ (passed (test_page1 shop_url (fun _ => sample_listing)
                  (fun u => Some (sample_view u)) None "11/02/2026" "10:00 AM PST") = true <->
          urls <> []
          /\ forall rec,
               rec ∈ extractProductDetails <$>
                      [ sample_view "https://www.medstatsupplies.com/bluestar-kit";
                        sample_view "https://www.medstatsupplies.com/bluestar-refill";
                        sample_view "https://www.medstatsupplies.com/product/bluestar-kit" ] ->
               productUrl rec <> "").
Proof.
  apply (test_page1_outcome shop_url (fun _ => sample_listing) (fun u => Some (sample_view u))
           None "11/02/2026" "10:00 AM PST").
  vm_compute. reflexivity.
Defined.

Lemma string_app_length (a b : string) :
  String.length (a ++ b) = String.length a + String.length b.
Proof. induction a as [|c a IH]; simpl; [reflexivity|]. rewrite IH. reflexivity. Qed.

Lemma string_app_inv_head (a b c : string) : a ++ b = a ++ c -> b = c.
Proof. induction a as [|x a IH]; simpl; [tauto|]. intros [= H]. apply IH, H. Qed.

(** The search pages have URLs of their own: page 1 is the search URL
    as it is, every other page adds its number, and two different page
    numbers never give the same URL. *)
Theorem search_urls_differ (i j : nat) :
  i <> j -> search_url i <> search_url j.
Proof.
  intros Hne H. unfold search_url in H.
  destruct (Nat.eqb_spec i 1) as [->|Hi], (Nat.eqb_spec j 1) as [->|Hj].
  - congruence.
  - apply (f_equal String.length) in H. rewrite string_app_length in H.
    simpl in H. lia.
  - apply (f_equal String.length) in H. rewrite string_app_length in H.
    simpl in H. lia.
  - apply string_app_inv_head in H. apply (string_app_inv_head "&page=") in H.
    apply (inj pretty) in H. contradiction.
Qed.

Lemma search_urls_differ_witness : search_url 1 <> search_url 2.
Proof. apply (search_urls_differ 1 2). lia. Defined.

End Runs.


(** ** What the extractor finds *)

Section Found.

Import Regex Extract.

Lemma run_repeat (i greedy : bool) (min : nat) (p : ascii -> bool) (k : cont)
    (prev : option ascii) (rest : string) (cap : option string) :
  run i (Repeat greedy min p) k prev rest cap = repeat_class greedy p k min prev rest cap.
Proof. reflexivity. Qed.

Lemma run_group (i : bool) (r : regex) (k : cont)
    (prev : option ascii) (rest : string) (cap : option string) :
  run i (Group r) k prev rest cap
  = run i r (fun prev' rest' _ => k prev' rest' (Some (consumed rest rest'))) prev rest cap.
Proof. reflexivity. Qed.

Lemma consumed_app (a b : string) : consumed (a ++ b) b = a.
Proof.
  unfold consumed. rewrite string_app_length.
  replace (String.length a + String.length b - String.length b) with (String.length a) by lia.
  induction a as [|c a IH]; simpl; [destruct b; reflexivity|]. rewrite IH. reflexivity.
Qed.

Lemma consumed_all (s : string) : consumed s "" = s.
Proof.
  unfold consumed. cbn [String.length]. rewrite Nat.sub_0_r.
  induction s as [|c s IH]; [reflexivity|]. cbn [String.length substring]. f_equal. exact IH.
Qed.

Lemma string_app_assoc (a b c : string) : (a ++ b) ++ c = a ++ b ++ c.
Proof.
  induction a as [|x a IH]; [reflexivity|].
  change (String x ((a ++ b) ++ c) = String x (a ++ b ++ c)). f_equal. exact IH.
Qed.

Lemma last_char_app (a b : string) :
  forall prev, last_char prev (a ++ b) = last_char (last_char prev a) b.
Proof. induction a as [|c a IH]; intros prev; simpl; [reflexivity|apply IH]. Qed.

(** A greedy quantifier takes the whole run when what follows accepts. *)
Lemma repeat_greedy_take (p : ascii -> bool) (k : cont) (cap : option string)
    (o : outcome) (rest : string) (a : string) :
  forall (min : nat) (prev : option ascii),
  JS.all_chars p a = true ->
  starts_outside p rest ->
  min <= String.length a ->
  k (last_char prev a) rest cap = Some o ->
  repeat_class true p k min prev (a ++ rest) cap = Some o.
Proof.
  induction a as [|c a IH]; intros min prev Ha Hrest Hmin Hk.
  - simpl in *. assert (min = 0) as -> by lia.
    destruct rest as [|c rest]; simpl.
    + exact Hk.
    + simpl in Hrest. rewrite Hrest. exact Hk.
  - simpl in Ha. apply andb_prop in Ha as [Hc Ha]. simpl in Hmin.
    assert (Hmore : repeat_class true p k (Nat.pred min) (Some c) (a ++ rest) cap = Some o)
      by (apply IH; [exact Ha|exact Hrest|lia|exact Hk]).
    change (String c a ++ rest) with (String c (a ++ rest)).
    simpl. rewrite Hc, Hmore. destruct min; reflexivity.
Qed.

Lemma optional_take (p : ascii -> bool) (k : cont) (prev : option ascii) (c : ascii)
    (rest : string) (cap : option string) (o : outcome) :
  p c = true -> k (Some c) rest cap = Some o ->
  run true (Optional p) k prev (String c rest) cap = Some o.
Proof. intros Hc Hk. simpl. rewrite Hc, Hk. reflexivity. Qed.

Lemma optional_skip (p : ascii -> bool) (k : cont) (prev : option ascii)
    (rest : string) (cap : option string) :
  starts_outside p rest ->
  run true (Optional p) k prev rest cap = k prev rest cap.
Proof.
  intros H. destruct rest as [|c rest]; simpl; [reflexivity|].
  simpl in H. rewrite H. reflexivity.
Qed.

Lemma literal_ci (l : string) (k : cont) (cap : option string) (rest : string) :
  forall (found : string) (prev : option ascii),
  ci_equal l found = true ->
  literal true l k prev (found ++ rest) cap = k (last_char prev found) rest cap.
Proof.
  induction l as [|a l IH]; intros found prev H; destruct found as [|c found];
    cbn [ci_equal] in H; try discriminate; [reflexivity|].
  apply andb_prop in H as [Hc H].
  change (String c found ++ rest) with (String c (found ++ rest)).
  cbn [literal]. rewrite Hc. simpl last_char. apply IH, H.
Qed.

Lemma is_word_canonicalize (c : ascii) : JS.is_word (JS.canonicalize c) = JS.is_word c.
Proof. destruct c as [[] [] [] [] [] [] [] []]; vm_compute; reflexivity. Qed.

Lemma char_eq_is_word (a c : ascii) :
  char_eq true a c = true -> JS.is_word c = JS.is_word a.
Proof.
  unfold char_eq. intros H. apply Ascii.eqb_eq in H.
  rewrite <- (is_word_canonicalize c), <- (is_word_canonicalize a), H. reflexivity.
Qed.

Lemma search_skip_label (a : ascii) (l : string) (pre rest : string) :
  forall prev : option ascii,
  JS.all_chars (fun c => negb (char_eq true a c)) pre = true ->
  search true (label_regex (String a l)) prev (pre ++ rest)
  = search true (label_regex (String a l)) (last_char prev pre) rest.
Proof.
  induction pre as [|c pre IH]; intros prev H; [reflexivity|].
  simpl in H. apply andb_prop in H as [Hc Hpre].
  apply negb_true_iff in Hc.
  change (String c pre ++ rest) with (String c (pre ++ rest)).
  rewrite search_eq. unfold label_regex at 1.
  rewrite run_label_mismatch by exact Hc.
  simpl last_char. apply IH, Hpre.
Qed.

Lemma trim_keeps_head (c : ascii) (v : string) :
  JS.is_space c = false -> JS.truthy (JS.trim (String c v)) = true.
Proof.
  intros Hc. unfold JS.trim. simpl JS.trimStart. rewrite Hc. simpl.
  destruct (JS.trimEnd v); [rewrite Hc|]; reflexivity.
Qed.

Lemma all_chars_app (p : ascii -> bool) (a b : string) :
  JS.all_chars p (a ++ b) = JS.all_chars p a && JS.all_chars p b.
Proof.
  induction a as [|c a IH]; [reflexivity|].
  change (String c a ++ b) with (String c (a ++ b)). cbn [JS.all_chars].
  rewrite IH, andb_assoc. reflexivity.
Qed.

Lemma separator_not_space (c : ascii) : is_separator c = true -> JS.is_space c = false.
Proof.
  destruct c as [[] [] [] [] [] [] [] []]; intros Hc; vm_compute in Hc;
    try discriminate; reflexivity.
Qed.

(** After a label: white space, an optional separator and white space
    are passed when the value matches behind them. *)
Lemma run_after_label (value : regex) (ws1 sep ws2 : string) (c0 : ascii)
    (tail : string) (prev : option ascii) (o : outcome) :
  label_gap ws1 sep ws2 ->
  JS.is_space c0 = false -> is_separator c0 = false ->
  (forall p, run true value accept p (String c0 tail) None = Some o) ->
  run true (after_label value) accept prev (ws1 ++ sep ++ ws2 ++ String c0 tail) None
  = Some o.
Proof.
  intros (Hws1 & Hws2 & Hsep) Hsp Hnosep Hvalue.
  assert (Hgap2 : forall p2,
            run true (Seq (Repeat true 0 JS.is_space) value)
              accept p2 (ws2 ++ String c0 tail) None = Some o).
  { intros p2. rewrite run_seq, run_repeat.
    apply repeat_greedy_take; [exact Hws2|exact Hsp|lia|apply Hvalue]. }
  unfold after_label. rewrite run_seq, run_repeat.
  destruct Hsep as [->|(c & -> & Hc)].
  - change ("" ++ ws2 ++ String c0 tail) with (ws2 ++ String c0 tail).
    rewrite <- string_app_assoc.
    apply repeat_greedy_take; [|exact Hsp|lia|].
    + rewrite all_chars_app. unfold ws_only in Hws1, Hws2. rewrite Hws1, Hws2. reflexivity.
    + rewrite run_seq, optional_skip by exact Hnosep.
      rewrite run_seq, run_repeat.
      apply (repeat_greedy_take _ _ _ _ _ ""); [reflexivity|exact Hsp|simpl; lia|apply Hvalue].
  - apply repeat_greedy_take; [exact Hws1| |lia|].
    + simpl. apply separator_not_space, Hc.
    + rewrite run_seq.
      change (String c "" ++ ws2 ++ String c0 tail)
        with (String c (ws2 ++ String c0 tail)).
      apply optional_take; [exact Hc|apply Hgap2].
Qed.

(** The label is found at the first place it can start. *)
Lemma search_label (a : ascii) (l found pre tail : string) (value : regex) (o : outcome) :
  ci_equal (String a l) found = true ->
  JS.is_word a = true ->
  JS.all_chars (fun c => negb (char_eq true a c)) pre = true ->
  is_word_before (last_char None pre) = false ->
  run true (after_label value) accept (last_char (last_char None pre) found) tail None
  = Some o ->
  run true (Seq WordBoundary (Seq (Literal (String a l)) (after_label value))) accept
    (last_char None pre) (found ++ tail) None = Some o.
Proof.
  intros Hfound Hword Hpre Hbound Hrun.
  rewrite run_seq. cbn [run].
  destruct found as [|c found]; [discriminate|].
  pose proof Hfound as Hc. cbn [ci_equal] in Hc. apply andb_prop in Hc as [Hc _].
  rewrite Hbound. simpl is_word_after.
  rewrite (char_eq_is_word a c Hc), Hword. simpl xorb. cbv iota.
  change (literal true (String a l) (run true (after_label value) accept)
            (last_char None pre) (String c found ++ tail) None = Some o).
  rewrite literal_ci by exact Hfound. exact Hrun.
Qed.

Lemma search_skip_any (a : ascii) (l : string) (value : regex) (pre rest : string) :
  forall prev : option ascii,
  JS.all_chars (fun c => negb (char_eq true a c)) pre = true ->
  search true (Seq WordBoundary (Seq (Literal (String a l)) value)) prev (pre ++ rest)
  = search true (Seq WordBoundary (Seq (Literal (String a l)) value))
      (last_char prev pre) rest.
Proof.
  induction pre as [|c pre IH]; intros prev H; [reflexivity|].
  simpl in H. apply andb_prop in H as [Hc Hpre].
  apply negb_true_iff in Hc.
  change (String c pre ++ rest) with (String c (pre ++ rest)).
  rewrite search_eq.
  rewrite run_label_mismatch by exact Hc.
  simpl last_char. apply IH, Hpre.
Qed.

(** A line that holds a label and a value gives the value. The text
    has, after a part in which the label cannot start, the label in any
    case of its letters at a word boundary, then white space, an
    optional separator and white space, then the value, which does not
    begin with white space or a separator and runs to the end of its
    line: [matchAfter] returns the value, trimmed. *)
Theorem label_line_gives_value (a : ascii) (l found pre ws1 sep ws2 : string)
    (c0 : ascii) (v' rest : string) :
  ci_equal (String a l) found = true ->
  JS.is_word a = true ->
  JS.all_chars (fun c => negb (char_eq true a c)) pre = true ->
  is_word_before (last_char None pre) = false ->
  label_gap ws1 sep ws2 ->
  JS.is_space c0 = false -> is_separator c0 = false ->
  JS.all_chars not_newline (String c0 v') = true ->
  starts_outside not_newline rest ->
  matchAfter (pre ++ found ++ ws1 ++ sep ++ ws2 ++ String c0 v' ++ rest)
    (label_regex (String a l))
  = Some (JS.trim (String c0 v')).
Proof.
  intros Hfound Hword Hpre Hbound Hgap Hsp Hnosep Hv Hrest.
  unfold matchAfter, match_. rewrite search_skip_label by exact Hpre.
  rewrite search_eq.
  assert (Hrun : run true (label_regex (String a l)) accept (last_char None pre)
                   (found ++ ws1 ++ sep ++ ws2 ++ String c0 v' ++ rest) None
                 = Some (rest, Some (String c0 v'))).
  { unfold label_regex. apply search_label; try assumption.
    change (String c0 v' ++ rest) with (String c0 (v' ++ rest)).
    apply run_after_label; try assumption.
    intros p3. change (String c0 (v' ++ rest)) with (String c0 v' ++ rest).
    rewrite run_group, run_repeat.
    apply repeat_greedy_take; [exact Hv|exact Hrest|simpl; lia|].
    unfold accept. rewrite consumed_app. reflexivity. }
  rewrite Hrun. simpl. rewrite trim_keeps_head by exact Hsp. reflexivity.
Qed.

Lemma label_line_gives_value_witness :
  matchAfter (("Oximeter" ++ line_break) ++ "sku" ++ " " ++ "#" ++ " "
              ++ "BS-100 " ++ line_break ++ "MPN: 7")
    (label_regex "SKU")
  = Some (JS.trim "BS-100 ").
Proof.
  apply (label_line_gives_value "S" "KU" "sku" ("Oximeter" ++ line_break)
           " " "#" " " "B" "S-100 " (line_break ++ "MPN: 7"));
    try (vm_compute; reflexivity).
  split; [reflexivity|]. split; [reflexivity|].
  right. exists "#"%char. split; reflexivity.
Defined.

(** A lazy quantifier before the end of the input takes all of it. *)
Lemma repeat_lazy_to_end (p : ascii -> bool) (k : cont) (cap : option string) (a : string) :
  forall prev : option ascii,
  JS.all_chars p a = true ->
  (forall q r c, r <> "" -> k q r c = None) ->
  repeat_class false p k 0 prev a cap
  = match k (last_char prev a) "" cap with Some o => Some o | None => None end.
Proof.
  induction a as [|c a IH]; intros prev Ha Hk.
  - simpl. reflexivity.
  - simpl in Ha. apply andb_prop in Ha as [Hc Ha].
    simpl. rewrite (Hk prev (String c a) cap) by discriminate.
    rewrite Hc. apply IH; assumption.
Qed.

Lemma any_char_all (s : string) : JS.all_chars any_char s = true.
Proof.
  induction s as [|c s IH]; [reflexivity|]. simpl. rewrite IH.
  unfold any_char. destruct (JS.is_space c); reflexivity.
Qed.

(** The description is the rest of the text. After a part in which the
    label cannot start, the text has the label Description in any case
    at a word boundary, white space, an optional separator and white
    space, and then anything that does not begin with white space or a
    separator: [matchAfter] returns all of it to the end of the text,
    trimmed, line breaks included. *)
Theorem description_is_rest_of_text (found pre ws1 sep ws2 : string)
    (c0 : ascii) (tail : string) :
  ci_equal "Description" found = true ->
  JS.all_chars (fun c => negb (char_eq true "D" c)) pre = true ->
  is_word_before (last_char None pre) = false ->
  label_gap ws1 sep ws2 ->
  JS.is_space c0 = false -> is_separator c0 = false ->
  matchAfter (pre ++ found ++ ws1 ++ sep ++ ws2 ++ String c0 tail) description_regex
  = Some (JS.trim (String c0 tail)).
Proof.
  intros Hfound Hpre Hbound Hgap Hsp Hnosep.
  unfold matchAfter, match_. unfold description_regex at 1.
  rewrite search_skip_any by exact Hpre.
  rewrite search_eq.
  assert (Hnl : not_newline c0 = true).
  { destruct c0 as [[] [] [] [] [] [] [] []]; vm_compute in Hsp; try discriminate;
      reflexivity. }
  assert (Hrun : run true description_regex accept (last_char None pre)
                   (found ++ ws1 ++ sep ++ ws2 ++ String c0 tail) None
                 = Some ("", Some (String c0 tail))).
  { unfold description_regex. apply search_label; try assumption; [reflexivity|].
    apply run_after_label; try assumption.
    intros p3. rewrite run_seq, run_group, run_seq. cbn [run]. rewrite Hnl.
    rewrite repeat_lazy_to_end.
    - simpl. rewrite consumed_all. reflexivity.
    - apply any_char_all.
    - intros q r c Hr. destruct r; [congruence|reflexivity]. }
  unfold description_regex in Hrun. rewrite Hrun. simpl.
  rewrite trim_keeps_head by exact Hsp. reflexivity.
Qed.

Lemma description_is_rest_of_text_witness :
  matchAfter (("SKU: 7" ++ line_break) ++ "DESCRIPTION" ++ "" ++ ":" ++ line_break
              ++ String "R" ("eagent kit" ++ line_break ++ "Box of 10 "))
    description_regex
  = Some (JS.trim (String "R" ("eagent kit" ++ line_break ++ "Box of 10 "))).
Proof.
  apply (description_is_rest_of_text "DESCRIPTION" ("SKU: 7" ++ line_break)
           "" ":" line_break "R" ("eagent kit" ++ line_break ++ "Box of 10 "));
    try (vm_compute; reflexivity).
  split; [reflexivity|]. split; [reflexivity|].
  right. exists ":"%char. split; reflexivity.
Defined.

(** ** Where a value comes from *)

Lemma search_inv (i : bool) (r : regex) (text : string) :
  forall (prev : option ascii) (m : match_result),
  search i r prev text = Some m ->
  exists pre s rest cap,
    text = pre ++ s
    /\ run i r accept (last_char prev pre) s None = Some (rest, cap)
    /\ m = {| whole := consumed s rest; group1 := cap |}
    /\ (forall a b, pre = a ++ b -> b <> "" ->
          run i r accept (last_char prev a) (b ++ s) None = None).
Proof.
  assert (Hhere : forall prev s rest cap,
            run i r accept prev s None = Some (rest, cap) ->
            exists pre s' rest' cap',
              s = pre ++ s'
              /\ run i r accept (last_char prev pre) s' None = Some (rest', cap')
              /\ {| whole := consumed s rest; group1 := cap |}
                 = {| whole := consumed s' rest'; group1 := cap' |}
              /\ (forall a b, pre = a ++ b -> b <> "" ->
                    run i r accept (last_char prev a) (b ++ s') None = None)).
  { intros prev s rest cap Hrun. exists "", s, rest, cap.
    split; [reflexivity|]. split; [exact Hrun|]. split; [reflexivity|].
    intros a b Hab Hb. destruct a; destruct b; try discriminate. congruence. }
  induction text as [|c text IH]; intros prev m H; rewrite search_eq in H.
  - destruct (run i r accept prev "" None) as [[rest cap]|] eqn:Hrun; [|discriminate].
    injection H as <-. apply Hhere, Hrun.
  - destruct (run i r accept prev (String c text) None) as [[rest cap]|] eqn:Hrun.
    + injection H as <-. apply Hhere, Hrun.
    + apply IH in H as (pre & s & rest & cap & -> & Hr & -> & Hleft).
      exists (String c pre), s, rest, cap.
      split; [reflexivity|]. split; [exact Hr|]. split; [reflexivity|].
      intros a b Hab Hb. destruct a as [|x a].
      * change ("" ++ b) with b in Hab. subst b. exact Hrun.
      * change (String x a ++ b) with (String x (a ++ b)) in Hab.
        injection Hab as -> Hab. simpl last_char. apply Hleft; assumption.
Qed.

Lemma literal_inv (l : string) (k : cont) (cap : option string) (o : outcome) :
  forall (s : string) (prev : option ascii),
  literal true l k prev s cap = Some o ->
  exists found s', s = found ++ s' /\ ci_equal l found = true
                   /\ k (last_char prev found) s' cap = Some o.
Proof.
  induction l as [|a l IH]; intros s prev H.
  - exists "", s. auto.
  - destruct s as [|c s]; cbn [literal] in H; [discriminate|].
    destruct (char_eq true a c) eqn:Hc; [|discriminate].
    apply IH in H as (found & s' & -> & Hf & Hk).
    exists (String c found), s'. split; [reflexivity|]. split; [|exact Hk].
    cbn [ci_equal]. rewrite Hc. exact Hf.
Qed.

(** What a quantified class returns was returned by its continuation
    behind a run of characters of the class. *)
Lemma repeat_inv (greedy : bool) (p : ascii -> bool) (k : cont) (cap : option string)
    (o : outcome) (s : string) :
  forall (min : nat) (prev : option ascii),
  repeat_class greedy p k min prev s cap = Some o ->
  exists a s', s = a ++ s' /\ JS.all_chars p a = true /\ min <= String.length a
               /\ k (last_char prev a) s' cap = Some o.
Proof.
  induction s as [|c s IH]; intros min prev H.
  - simpl in H. destruct min; [|discriminate]. exists "", "".
    repeat split; [simpl; lia|]. cbn [last_char].
    destruct greedy; [exact H|]. destruct (k prev "" cap); [exact H|discriminate].
  - assert (Hmore : (if p c then repeat_class greedy p k (Nat.pred min) (Some c) s cap
                     else None) = Some o ->
                    exists a s', String c s = a ++ s' /\ JS.all_chars p a = true
                                 /\ min <= String.length a
                                 /\ k (last_char prev a) s' cap = Some o).
    { destruct (p c) eqn:Hc; [|discriminate]. intros Hm.
      apply IH in Hm as (a & s' & -> & Ha & Hmin & Hk).
      exists (String c a), s'. split; [reflexivity|]. split; [simpl; rewrite Hc; exact Ha|].
      split; [simpl; lia|exact Hk]. }
    assert (Hnone : k prev (String c s) cap = Some o -> min = 0 ->
                    exists a s', String c s = a ++ s' /\ JS.all_chars p a = true
                                 /\ min <= String.length a
                                 /\ k (last_char prev a) s' cap = Some o).
    { intros Hk ->. exists "", (String c s). repeat split; [simpl; lia|exact Hk]. }
    simpl in H. destruct min as [|min]; [|apply Hmore, H].
    destruct greedy.
    + destruct (if p c then repeat_class true p k (Nat.pred 0) (Some c) s cap else None)
        as [o'|] eqn:Hm.
      * injection H as ->. apply Hmore. reflexivity.
      * apply Hnone; [exact H|reflexivity].
    + destruct (k prev (String c s) cap) as [o'|] eqn:Hk.
      * injection H as ->. apply Hnone; reflexivity.
      * apply Hmore, H.
Qed.

Lemma optional_inv (p : ascii -> bool) (k : cont) (prev : option ascii) (s : string)
    (cap : option string) (o : outcome) :
  run true (Optional p) k prev s cap = Some o ->
  exists sep s', s = sep ++ s'
                 /\ (sep = "" \/ exists c, sep = String c "" /\ p c = true)
                 /\ k (last_char prev sep) s' cap = Some o.
Proof.
  intros H.
  assert (Hskip : k prev s cap = Some o ->
                  exists sep s', s = sep ++ s'
                    /\ (sep = "" \/ exists c, sep = String c "" /\ p c = true)
                    /\ k (last_char prev sep) s' cap = Some o).
  { intros Hk. exists "", s. auto. }
  destruct s as [|c s]; simpl in H; [apply Hskip, H|].
  destruct (p c) eqn:Hc; [|apply Hskip, H].
  destruct (k (Some c) s cap) as [o'|] eqn:Hk; [|apply Hskip, H].
  injection H as ->. exists (String c ""), s.
  split; [reflexivity|]. split; [right; eauto|exact Hk].
Qed.

(** A greedy quantifier before a continuation that accepts everything
    takes the longest run. *)
Lemma repeat_greedy_total (p : ascii -> bool) (f : string -> option string)
    (k : cont) (cap : option string) (s : string) :
  (forall q r, k q r cap = Some (r, f r)) ->
  forall prev : option ascii, repeat_class true p k 0 prev s cap <> None.
Proof.
  intros Hk. induction s as [|c s IH]; intros prev; simpl.
  - rewrite Hk. discriminate.
  - destruct (p c).
    + destruct (repeat_class true p k 0 (Some c) s cap) eqn:Hm; [discriminate|].
      exfalso. exact (IH _ Hm).
    + rewrite Hk. discriminate.
Qed.

Lemma repeat_greedy_longest (p : ascii -> bool) (f : string -> option string)
    (k : cont) (cap : option string) (rest : string) (c : option string) (s : string) :
  (forall q r, k q r cap = Some (r, f r)) ->
  forall (min : nat) (prev : option ascii),
  repeat_class true p k min prev s cap = Some (rest, c) ->
  exists a, s = a ++ rest /\ JS.all_chars p a = true /\ starts_outside p rest
            /\ min <= String.length a /\ c = f rest.
Proof.
  intros Hk. induction s as [|x s IH]; intros min prev H.
  - simpl in H. destruct min; [|discriminate]. rewrite Hk in H. injection H as <- <-.
    exists "". repeat split. simpl. lia.
  - assert (Hmore : forall m, p x = true -> m <= S (Nat.pred m) ->
                      repeat_class true p k (Nat.pred m) (Some x) s cap = Some (rest, c) ->
                      exists a, String x s = a ++ rest /\ JS.all_chars p a = true
                                /\ starts_outside p rest
                                /\ m <= String.length a /\ c = f rest).
    { intros m Hx Hm Hrun. apply IH in Hrun as (a & -> & Ha & Hout & Hmin & Hc).
      exists (String x a). split; [reflexivity|]. split; [simpl; rewrite Hx; exact Ha|].
      split; [exact Hout|]. split; [simpl; lia|exact Hc]. }
    simpl in H. destruct (p x) eqn:Hx.
    + destruct min as [|min]; [|apply (Hmore (S min)); [reflexivity|simpl; lia|exact H]].
      destruct (repeat_class true p k (Nat.pred 0) (Some x) s cap) as [o|] eqn:Hm.
      * injection H as ->. apply (Hmore 0); [reflexivity|lia|exact Hm].
      * exfalso. exact (repeat_greedy_total p f k cap s Hk _ Hm).
    + destruct min; [|discriminate]. rewrite Hk in H. injection H as <- <-.
      exists "". repeat split; [exact Hx|simpl; lia].
Qed.

Lemma after_label_inv (value : regex) (prev : option ascii) (s : string) (o : outcome) :
  run true (after_label value) accept prev s None = Some o ->
  exists ws1 sep ws2 s' q,
    s = ws1 ++ sep ++ ws2 ++ s' /\ label_gap ws1 sep ws2
    /\ run true value accept q s' None = Some o.
Proof.
  unfold after_label. rewrite run_seq, run_repeat. intros H.
  apply repeat_inv in H as (ws1 & s1 & -> & Hws1 & _ & H).
  rewrite run_seq in H.
  apply optional_inv in H as (sep & s2 & -> & Hsep & H).
  rewrite run_seq, run_repeat in H.
  apply repeat_inv in H as (ws2 & s3 & -> & Hws2 & _ & H).
  exists ws1, sep, ws2, s3, (last_char (last_char (last_char prev ws1) sep) ws2).
  split; [reflexivity|]. split; [|exact H].
  split; [exact Hws1|]. split; [exact Hws2|exact Hsep].
Qed.

Lemma label_inv (label : string) (value : regex) (text : string) (m : match_result) :
  match_ true (Seq WordBoundary (Seq (Literal label) (after_label value))) text = Some m ->
  exists pre found ws1 sep ws2 s q rest,
    text = pre ++ found ++ ws1 ++ sep ++ ws2 ++ s
    /\ ci_equal label found = true
    /\ label_gap ws1 sep ws2
    /\ is_word_before (last_char None pre)
       <> is_word_after (found ++ ws1 ++ sep ++ ws2 ++ s)
    /\ run true value accept q s None = Some (rest, group1 m).
Proof.
  unfold match_. intros H.
  apply search_inv in H as (pre & s0 & rest & cap & -> & Hrun & -> & _).
  rewrite run_seq in Hrun. cbn [run] in Hrun.
  destruct (xorb _ _) eqn:Hb in Hrun; [|discriminate].
  change (literal true label (run true (after_label value) accept)
            (last_char None pre) s0 None = Some (rest, cap)) in Hrun.
  apply literal_inv in Hrun as (found & s1 & -> & Hfound & Hrun).
  apply after_label_inv in Hrun as (ws1 & sep & ws2 & s & q & -> & Hgap & Hrun).
  exists pre, found, ws1, sep, ws2, s, q, rest.
  split; [reflexivity|]. split; [exact Hfound|]. split; [exact Hgap|].
  split; [|exact Hrun].
  intros Heq. rewrite Heq, xorb_nilpotent in Hb. discriminate.
Qed.

Lemma truthy_nonempty (v : string) : JS.truthy v = true -> v <> "".
Proof. destruct v; [discriminate|discriminate]. Qed.

(** Every value of a label is taken from a line of the text. When
    [matchAfter] returns a value for a label, the text has the label
    at a word boundary, in any case of its letters, then white space,
    an optional separator and white space, then a piece without a line
    break that runs to the end of its line; the value is that piece,
    trimmed, and it is not empty. *)
Theorem value_comes_from_label_line (label text v : string) :
  matchAfter text (label_regex label) = Some v ->
  exists pre found ws1 sep ws2 g rest,
    text = pre ++ found ++ ws1 ++ sep ++ ws2 ++ g ++ rest
    /\ ci_equal label found = true
    /\ is_word_before (last_char None pre)
       <> is_word_after (found ++ ws1 ++ sep ++ ws2 ++ g ++ rest)
    /\ label_gap ws1 sep ws2
    /\ JS.all_chars not_newline g = true
    /\ starts_outside not_newline rest
    /\ v = JS.trim g /\ v <> "".
Proof.
  intros H. apply matchAfter_spec in H as (m & g & Hm & Hg & -> & Ht).
  unfold label_regex in Hm.
  apply label_inv in Hm
    as (pre & found & ws1 & sep & ws2 & s & q & rest & -> & Hfound & Hgap & Hb & Hrun).
  rewrite run_group, run_repeat in Hrun.
  apply (repeat_greedy_longest not_newline (fun r => Some (consumed s r))) in Hrun
    as (a & -> & Ha & Hout & _ & Hcap); [|reflexivity].
  rewrite Hg, consumed_app in Hcap. injection Hcap as ->.
  exists pre, found, ws1, sep, ws2, a, rest.
  split; [reflexivity|]. split; [exact Hfound|]. split; [exact Hb|].
  split; [exact Hgap|]. split; [exact Ha|]. split; [exact Hout|].
  split; [reflexivity|apply truthy_nonempty, Ht].
Qed.

Lemma value_comes_from_label_line_witness :
  exists pre found ws1 sep ws2 g rest,
    "Item No" ++ line_break ++ "mpn - 44 A " ++ line_break ++ "Stock: 3"
    = pre ++ found ++ ws1 ++ sep ++ ws2 ++ g ++ rest
    /\ ci_equal "MPN" found = true
    /\ is_word_before (last_char None pre)
       <> is_word_after (found ++ ws1 ++ sep ++ ws2 ++ g ++ rest)
    /\ label_gap ws1 sep ws2
    /\ JS.all_chars not_newline g = true
    /\ starts_outside not_newline rest
    /\ "44 A" = JS.trim g /\ "44 A" <> "".
Proof.
  apply (value_comes_from_label_line "MPN"
           ("Item No" ++ line_break ++ "mpn - 44 A " ++ line_break ++ "Stock: 3") "44 A").
  vm_compute. reflexivity.
Defined.

(** ** Trimmed fields *)

Lemma trimStart_starts_outside (s : string) : starts_outside JS.is_space (JS.trimStart s).
Proof.
  induction s as [|c s IH]; simpl; [exact I|].
  destruct (JS.is_space c) eqn:Hc; [exact IH|exact Hc].
Qed.

Lemma trimEnd_starts_outside (s : string) :
  starts_outside JS.is_space s -> starts_outside JS.is_space (JS.trimEnd s).
Proof.
  destruct s as [|c s]; simpl; [auto|]. intros Hc.
  destruct (JS.trimEnd s); [rewrite Hc|]; exact Hc.
Qed.

Lemma trimStart_id (s : string) : starts_outside JS.is_space s -> JS.trimStart s = s.
Proof. destruct s as [|c s]; simpl; [reflexivity|]. intros ->. reflexivity. Qed.

Lemma trimEnd_idemp (s : string) : JS.trimEnd (JS.trimEnd s) = JS.trimEnd s.
Proof.
  induction s as [|c s IH]; [reflexivity|].
  cbn [JS.trimEnd]. destruct (JS.trimEnd s) as [|d t] eqn:Hs.
  - destruct (JS.is_space c) eqn:Hc; [reflexivity|].
    cbn [JS.trimEnd]. rewrite Hc. reflexivity.
  - change (JS.trimEnd (String c (String d t)))
      with (match JS.trimEnd (String d t) with
            | EmptyString => if JS.is_space c then EmptyString else String c EmptyString
            | String x u => String c (String x u)
            end).
    rewrite IH. reflexivity.
Qed.

Lemma trim_idemp (s : string) : JS.trim (JS.trim s) = JS.trim s.
Proof.
  unfold JS.trim.
  rewrite (trimStart_id (JS.trimEnd (JS.trimStart s))).
  - apply trimEnd_idemp.
  - apply trimEnd_starts_outside, trimStart_starts_outside.
Qed.

Lemma matchAfter_trimmed (text : string) (r : regex) (v : string) :
  matchAfter text r = Some v -> v <> "" /\ JS.trim v = v.
Proof.
  intros H. apply matchAfter_spec in H as (m & g & _ & _ & -> & Ht).
  split; [apply truthy_nonempty, Ht|apply trim_idemp].
Qed.

Lemma or_else_trimmed (a b : option string) (v : string) :
  (forall w, a = Some w -> JS.trim w = w) ->
  (forall w, b = Some w -> w <> "" /\ JS.trim w = w) ->
  or_else a b = Some v -> v <> "" /\ JS.trim v = v.
Proof.
  intros Ha Hb. unfold or_else. destruct a as [w|]; [|apply Hb].
  destruct (JS.truthy w) eqn:Hw; [|apply Hb].
  intros [= <-]. split; [apply truthy_nonempty, Hw|apply Ha; reflexivity].
Qed.

Lemma or_else_matchAfter_trimmed (text : string) (r : regex) (b : option string)
    (v : string) :
  (forall w, b = Some w -> w <> "" /\ JS.trim w = w) ->
  or_else (matchAfter text r) b = Some v -> v <> "" /\ JS.trim v = v.
Proof.
  intros Hb. apply or_else_trimmed; [|exact Hb].
  intros w Hw. apply (matchAfter_trimmed _ _ _ Hw).
Qed.

(** No field is kept empty or padded. The name, the SKU, the MPN, the
    manufacturer, the stock and the description of an extracted record
    are absent or a text that is not empty and has no white space at
    either end. *)
Theorem extracted_fields_are_trimmed (pg : page_view)
    (field : ProductRecord -> option string) (v : string) :
  field ∈ trimmed_fields ->
  field (extractProductDetails pg) = Some v ->
  v <> "" /\ JS.trim v = v.
Proof.
  assert (Hnone : forall w : string, @None string = Some w -> w <> "" /\ JS.trim w = w)
    by discriminate.
  intros Hin. unfold trimmed_fields in Hin.
  repeat (apply elem_of_cons in Hin as [->|Hin]); [..|inversion Hin];
    unfold extractProductDetails; cbn [productName sku mpn manufacturer stock description].
  - destruct (h1_textContent pg) as [t|]; [|discriminate].
    apply or_else_trimmed; [|exact Hnone].
    intros w [= <-]. apply trim_idemp.
  - apply or_else_matchAfter_trimmed. intros w.
    apply or_else_matchAfter_trimmed. exact Hnone.
  - apply or_else_matchAfter_trimmed. exact Hnone.
  - apply or_else_matchAfter_trimmed. exact Hnone.
  - apply or_else_matchAfter_trimmed. exact Hnone.
  - apply or_else_matchAfter_trimmed. exact Hnone.
Qed.

Lemma extracted_fields_are_trimmed_witness :
  "Bluestar kit" <> "" /\ JS.trim "Bluestar kit" = "Bluestar kit".
Proof.
  apply (extracted_fields_are_trimmed
           (sample_view "https://www.medstatsupplies.com/bluestar-kit")
           productName "Bluestar kit").
  - unfold trimmed_fields. apply elem_of_cons. left. reflexivity.
  - vm_compute. reflexivity.
Defined.

(** ** The price *)

Lemma amount_starts_app (x y : string) :
  amount_starts x = true -> amount_starts (x ++ y) = true.
Proof. destruct x as [|c [|d x]]; cbn [amount_starts]; try discriminate. auto. Qed.

Lemma price_run_total (x : string) (q : option ascii) :
  amount_starts x = true -> run false price_regex accept q x None <> None.
Proof.
  destruct x as [|c [|d x]]; cbn [amount_starts]; try discriminate.
  intros H. apply andb_prop in H as [Hc Hd].
  unfold price_regex. rewrite run_seq. cbn [run]. rewrite Hc.
  cbn [repeat_class]. rewrite Hd.
  apply (repeat_greedy_total is_price_char (fun _ => None)). reflexivity.
Qed.

(** The price is the first dollar amount of the text: the first dollar
    sign that a digit, a comma or a point follows, with all the digits,
    commas and points behind it, and nothing else. *)
Theorem price_is_first_dollar_amount (pg : page_view) (p : string) :
  price (extractProductDetails pg) = Some p ->
  exists pre digits rest,
    detailsText_of pg = pre ++ p ++ rest
    /\ p = String "$" digits
    /\ digits <> ""
    /\ JS.all_chars is_price_char digits = true
    /\ starts_outside is_price_char rest
    /\ (forall a b, pre = a ++ b -> b <> "" -> amount_starts (b ++ p) = false).
Proof.
  unfold extractProductDetails. cbn [price].
  destruct (match_ false price_regex (detailsText_of pg)) as [m|] eqn:Hm; [|discriminate].
  intros [= <-]. unfold match_ in Hm.
  apply search_inv in Hm as (pre & s & rest & cap & Htext & Hrun & -> & Hleft).
  cbn [whole]. unfold price_regex in Hrun. rewrite run_seq in Hrun. cbn [run] in Hrun.
  destruct s as [|c s]; [discriminate|].
  destruct (Ascii.eqb "$" c) eqn:Hc; [|discriminate].
  apply Ascii.eqb_eq in Hc. subst c.
  apply (repeat_greedy_longest is_price_char (fun _ => None)) in Hrun
    as (digits & -> & Hdigits & Hout & Hmin & _); [|reflexivity].
  change (String "$" (digits ++ rest)) with (String "$" digits ++ rest) in *.
  rewrite consumed_app.
  exists pre, digits, rest.
  split; [rewrite Htext; reflexivity|]. split; [reflexivity|].
  split; [destruct digits; [simpl in Hmin; lia|discriminate]|].
  split; [exact Hdigits|]. split; [exact Hout|].
  intros a b Hab Hb.
  destruct (amount_starts (b ++ String "$" digits)) eqn:Hstart; [|reflexivity].
  exfalso. apply (price_run_total ((b ++ String "$" digits) ++ rest) (last_char None a)).
  - apply amount_starts_app, Hstart.
  - rewrite string_app_assoc. apply Hleft; assumption.
Qed.

Lemma price_is_first_dollar_amount_witness :
  exists pre digits rest,
    detailsText_of (sample_view "https://www.medstatsupplies.com/bluestar-kit")
    = pre ++ "$1,234.56" ++ rest
    /\ "$1,234.56" = String "$" digits
    /\ digits <> ""
    /\ JS.all_chars is_price_char digits = true
    /\ starts_outside is_price_char rest
    /\ (forall a b, pre = a ++ b -> b <> "" -> amount_starts (b ++ "$1,234.56") = false).
Proof.
  apply (price_is_first_dollar_amount
           (sample_view "https://www.medstatsupplies.com/bluestar-kit") "$1,234.56").
  vm_compute. reflexivity.
Defined.

End Found.

(** ** Where the writer puts a value *)

Section Placement.

Import ExcelJS Writer.

Lemma index_headers_absent (name : string) (headers : list (option string)) :
  forall (idx : nat) (hi : gmap string nat),
  (forall j, headers !! j <> Some (Some name)) ->
  index_headers idx headers hi !! name = hi !! name.
Proof.
  induction headers as [|h headers IH]; intros idx hi H; [reflexivity|].
  simpl. rewrite IH by (intros j; apply (H (S j))).
  destruct h as [t|]; [|reflexivity].
  apply lookup_insert_ne. intros ->. apply (H 0). reflexivity.
Qed.

(** The header index gives a text the column of its last header. *)
Lemma index_headers_last (name : string) (headers : list (option string)) :
  forall (idx : nat) (hi : gmap string nat) (j : nat),
  headers !! j = Some (Some name) ->
  (forall j', j < j' -> headers !! j' <> Some (Some name)) ->
  index_headers idx headers hi !! name = Some (idx + j + 1).
Proof.
  induction headers as [|h headers IH]; intros idx hi j Hj Hlast; [discriminate|].
  destruct j as [|j]; simpl.
  - injection Hj as ->.
    rewrite index_headers_absent by (intros j; apply (Hlast (S j)); lia).
    rewrite lookup_insert_eq. f_equal. lia.
  - rewrite (IH (S idx) _ j).
    + f_equal. lia.
    + exact Hj.
    + intros j' Hj'. apply (Hlast (S j')). lia.
Qed.

Lemma header_index_last (headers : list (option string)) (name : string) (j : nat) :
  headers !! j = Some (Some name) ->
  (forall j', j < j' -> headers !! j' <> Some (Some name)) ->
  header_index headers !! name = Some (j + 1).
Proof. intros Hj Hlast. apply (index_headers_last name headers 0 ∅ j Hj Hlast). Qed.

Lemma cells_set_row_same (n : nat) (cs : gmap nat value) (ws : worksheet) :
  cells n (set_row n cs ws) = cs.
Proof. unfold cells. simpl. rewrite lookup_insert_eq. reflexivity. Qed.

(** The row of the [i]-th record of a batch. *)
Lemma appended_row (file : option (gmap nat (gmap nat value)))
    (records : list ProductRecord) (runDate runTime : string) (i : nat) :
  rows (writeExcel file records runDate runTime)
    !! (1 `max` rowCount (open_sheet file) + 1 + i)
  = (fun rec => cells_of_array
       (rowValues (header_index (reconcile (open_sheet file)).1) runDate runTime rec))
    <$> records !! i.
Proof.
  rewrite writeExcel_appends.
  destruct (step_then_append prepared
              ((fun rec => cells_of_array
                  (rowValues (header_index (reconcile (open_sheet file)).1)
                     runDate runTime rec)) <$> records)
              (open_sheet file) prepared_values) as (_ & _ & Hnew).
  rewrite Hnew. apply list_lookup_fmap.
Qed.

(** Values go by the text of the header, whatever the order of the
    columns. A value that the loop of [writeExcel] assigns under a
    header text is written, in the row of its record, to the column of
    the last header that reads that text; an earlier column with the
    same header gets no cell. *)
Theorem values_follow_the_last_header
    (file : option (gmap nat (gmap nat value))) (records : list ProductRecord)
    (runDate runTime : string) (i : nat) (rec : ProductRecord)
    (name : string) (v : value) (j : nat) :
  records !! i = Some rec ->
  (name, v) ∈ assignments runDate runTime rec ->
  (reconcile (open_sheet file)).1 !! j = Some (Some name) ->
  (forall j', j < j' -> (reconcile (open_sheet file)).1 !! j' <> Some (Some name)) ->
  rows (writeExcel file records runDate runTime)
    !! (1 `max` rowCount (open_sheet file) + 1 + i) ≫= (.!! (j + 1)) = Some v
  /\ forall j', j' <> j ->
       (reconcile (open_sheet file)).1 !! j' = Some (Some name) ->
       rows (writeExcel file records runDate runTime)
         !! (1 `max` rowCount (open_sheet file) + 1 + i) ≫= (.!! (j' + 1)) = None.
Proof.
  intros Hrec Hin Hj Hlast.
  pose proof (header_index_last _ _ _ Hj Hlast) as Hc.
  rewrite appended_row, Hrec. simpl. split.
  - apply (rowValues_placed _ runDate runTime rec name v (j + 1) Hin Hc).
  - intros j' Hne Hj'.
    destruct (cells_of_array _ !! (j' + 1)) as [v'|] eqn:Hv; [|reflexivity].
    exfalso. apply rowValues_source in Hv as (name' & _ & Hc').
    pose proof (header_index_position _ _ _ Hc') as [_ Hpos].
    replace (j' + 1 - 1) with j' in Hpos by lia.
    rewrite Hj' in Hpos. injection Hpos as <-.
    rewrite Hc in Hc'. injection Hc' as Heq. lia.
Qed.

Lemma values_follow_the_last_header_witness :
  rows (writeExcel (Some workbook_two_sku_columns) [sample_record]
          "11/02/2026" "10:00 AM PST")
    !! (1 `max` rowCount (open_sheet (Some workbook_two_sku_columns)) + 1 + 0)
    ≫= (.!! (2 + 1)) = Some (Text "BS-100")
  /\ forall j', j' <> 2 ->
       (reconcile (open_sheet (Some workbook_two_sku_columns))).1 !! j'
       = Some (Some "SKU") ->
       rows (writeExcel (Some workbook_two_sku_columns) [sample_record]
               "11/02/2026" "10:00 AM PST")
         !! (1 `max` rowCount (open_sheet (Some workbook_two_sku_columns)) + 1 + 0)
         ≫= (.!! (j' + 1)) = None.
Proof.
  apply (values_follow_the_last_header (Some workbook_two_sku_columns) [sample_record]
           "11/02/2026" "10:00 AM PST" 0 sample_record "SKU" (Text "BS-100") 2).
  - reflexivity.
  - vm_compute. do 3 right. left.
  - vm_compute. reflexivity.
  - intros j' Hj'. destruct j' as [|[|[|[|j']]]]; try lia; vm_compute; discriminate.
Defined.

(** When [writeExcel] adds MANUFACTURER to the header of a sheet that
    has rows, it assigns the headers as an array whose first element is
    [undefined]. The row takes such an array from column 1 on, so every
    header text of the rewritten row 1 stands one column to the right
    of its position: column 1 has no header, the header of position [j]
    (from 0) is in column [j + 2], and MANUFACTURER is in the column
    after the one the manufacturers are written to. *)
Theorem added_header_is_shifted
    (file : gmap nat (gmap nat value)) (records : list ProductRecord)
    (runDate runTime : string) :
  rowCount (open_sheet (Some file)) <> 0 ->
  includes "MANUFACTURER" (existing_headers (open_sheet (Some file))) = false ->
  let before := open_sheet (Some file) in
  let schema := (existing_headers before ++ [Some "MANUFACTURER"])%list in
  let after := writeExcel (Some file) records runDate runTime in
  (reconcile before).1 = schema
  /\ shown (cells 1 after) !! 1 = None
  /\ (forall j, shown (cells 1 after) !! (j + 2) = schema !! j ≫= fmap Text)
  /\ shown (cells 1 after) !! (length (existing_headers before) + 2)
     = Some (Text "MANUFACTURER")
  /\ forall i rec, records !! i = Some rec ->
       rows after !! (rowCount before + 1 + i)
         ≫= (.!! (length (existing_headers before) + 1))
       = Some (or_null (manufacturer rec)).
Proof.
  intros Hpop Hincl. cbv zeta.
  pose proof (reconcile_populated _ Hpop) as Hrec. rewrite Hincl in Hrec.
  set (schema := (existing_headers (open_sheet (Some file)) ++ [Some "MANUFACTURER"])%list)
    in *.
  assert (Hshown : forall c,
            shown (cells 1 (writeExcel (Some file) records runDate runTime)) !! c
            = (if decide (1 <= c)
               then get (Undefined :: (spread <$> schema)) (c - 1) else None)
              ≫= non_null).
  { intros c. rewrite writeExcel_appends.
    destruct (prepared_values (open_sheet (Some file))) as [Hc _].
    rewrite cells_append_rows by lia.
    unfold prepared.
    destruct (format_price_values
                (header_index (reconcile (open_sheet (Some file))).1)
                (reconcile (open_sheet (Some file))).2) as (_ & _ & Hv).
    rewrite Hv, Hrec. cbn [snd]. rewrite cells_set_row_same.
    unfold shown. rewrite lookup_omap.
    rewrite cells_of_array_contiguous by reflexivity. reflexivity. }
  assert (Hat : forall j,
            shown (cells 1 (writeExcel (Some file) records runDate runTime)) !! (j + 2)
            = schema !! j ≫= fmap Text).
  { intros j. rewrite Hshown. destruct (decide _); [|lia].
    replace (j + 2 - 1) with (S j) by lia.
    change (get (Undefined :: (spread <$> schema)) (S j))
      with (get (spread <$> schema) j).
    unfold get. rewrite list_lookup_fmap.
    destruct (schema !! j) as [[t|]|]; reflexivity. }
  split; [rewrite Hrec; reflexivity|].
  split; [rewrite Hshown; reflexivity|].
  split; [exact Hat|].
  split.
  { rewrite Hat. unfold schema.
    rewrite lookup_app_r by lia. rewrite Nat.sub_diag. reflexivity. }
  intros i rec Hi.
  replace (rowCount (open_sheet (Some file)))
    with (1 `max` rowCount (open_sheet (Some file))) by lia.
  rewrite appended_row, Hi. cbn [fmap option_fmap option_map mbind option_bind].
  apply (rowValues_placed _ runDate runTime rec "MANUFACTURER").
  - unfold assignments. do 6 right. left.
  - rewrite Hrec. cbn [fst]. apply header_index_last.
    + unfold schema. rewrite lookup_app_r by lia. rewrite Nat.sub_diag. reflexivity.
    + intros j' Hj'. unfold schema. rewrite lookup_ge_None_2; [discriminate|].
      rewrite length_app. simpl. lia.
Qed.

Lemma added_header_is_shifted_witness :
  let before := open_sheet (Some workbook_without_manufacturer) in
  let schema := (existing_headers before ++ [Some "MANUFACTURER"])%list in
  let after := writeExcel (Some workbook_without_manufacturer) [sample_record]
                 "11/02/2026" "10:00 AM PST" in
  (reconcile before).1 = schema
  /\ shown (cells 1 after) !! 1 = None
  /\ (forall j, shown (cells 1 after) !! (j + 2) = schema !! j ≫= fmap Text)
  /\ shown (cells 1 after) !! (length (existing_headers before) + 2)
     = Some (Text "MANUFACTURER")
  /\ forall i rec, [sample_record] !! i = Some rec ->
       rows after !! (rowCount before + 1 + i)
         ≫= (.!! (length (existing_headers before) + 1))
       = Some (or_null (manufacturer rec)).
Proof.
  apply (added_header_is_shifted workbook_without_manufacturer [sample_record]
           "11/02/2026" "10:00 AM PST").
  - vm_compute. discriminate.
  - vm_compute. reflexivity.
Defined.

End Placement.

(** ** A second run *)

Section SecondRun.

Import ExcelJS Writer.










Lemma cells_1_set_columns_from (defs : list column_def) :
  forall (n : nat) (ws ws' : worksheet),
  cells 1 ws = cells 1 ws' ->
  cells 1 (set_columns_from n defs ws) = cells 1 (set_columns_from n defs ws').
Proof.
  induction defs as [|d defs IH]; intros n ws ws' H; [exact H|].
  simpl. apply IH. unfold set_cell. rewrite !cells_set_row_same.
  change (cells 1 {| rows := rows ws; keys := set_key (key d) n (keys ws) |})
    with (cells 1 ws).
  change (cells 1 {| rows := rows ws'; keys := set_key (key d) n (keys ws') |})
    with (cells 1 ws').
  rewrite H. reflexivity.
Qed.

(** The inline writer rewrites the header of a sheet that has rows
    with an array whose first element is [undefined], which puts the
    ten header texts in the columns 2 to 11, and then sets the columns,
    which writes them to the columns 1 to 10: whatever row 1 held, it
    then reads the ten canonical headers and PRODUCT URL once more in
    column 11. *)
Theorem inline_header_row (file : gmap nat (gmap nat value))
    (records : list ProductRecord) (runDate runTime : string) :
  rowCount (open_sheet (Some file)) <> 0 ->
  shown (cells 1 (writeExcel_inline (Some file) records runDate runTime))
  = <[11 := Text "PRODUCT URL"]> header_cells.
Proof.
  intros Hpop. rewrite writeExcel_inline_appends.
  destruct (prepared_inline_values (open_sheet (Some file))) as [Hc _].
  rewrite cells_append_rows by lia.
  unfold prepared_inline.
  destruct (format_price_key_values (enforce_header (open_sheet (Some file))))
    as (_ & _ & Hv).
  rewrite Hv. unfold enforce_header.
  destruct (Nat.eqb_spec (rowCount (open_sheet (Some file))) 0) as [Hz|_];
    [contradiction|].
  unfold set_columns.
  rewrite (cells_1_set_columns_from columnDefs 1 _
             {| rows := {[ 1 := cells_of_array
                                  (Undefined
                                   :: ((fun h => Elem (Text h)) <$> defaultHeaders)) ]};
                keys := [] |}).
  - vm_compute. reflexivity.
  - rewrite cells_set_row_same. unfold cells. cbn [rows].
    rewrite lookup_singleton_eq. reflexivity.
Qed.

Lemma inline_header_row_witness :
  shown (cells 1 (writeExcel_inline (Some workbook_after_first_run) [sample_record]
                    "11/02/2026" "10:00 AM PST"))
  = <[11 := Text "PRODUCT URL"]> header_cells.
Proof.
  apply (inline_header_row workbook_after_first_run [sample_record]
           "11/02/2026" "10:00 AM PST").
  vm_compute. discriminate.
Defined.

End SecondRun.

(** ** The calls of the login *)

Section LoginCalls.

Import Login.

Variable resolves : action -> bool.

Lemma loginIfNeeded_perform (env : gmap string string) (tr : list action) :
  env_or_empty env "MEDSTAT_EMAIL" <> "" ->
  env_or_empty env "MEDSTAT_PASSWORD" <> "" ->
  loginIfNeeded resolves env tr
  = perform resolves
      (login_calls (env_or_empty env "MEDSTAT_EMAIL")
         (env_or_empty env "MEDSTAT_PASSWORD")) tr.
Proof.
  intros He Hp. unfold loginIfNeeded.
  destruct (env_or_empty env "MEDSTAT_EMAIL") as [|c1 e]; [congruence|].
  destruct (env_or_empty env "MEDSTAT_PASSWORD") as [|c2 p]; [congruence|].
  simpl. unfold mbind, script_bind, bind, caught, call, ret.
  repeat match goal with
  | |- context [resolves ?a] => destruct (resolves a); simpl
  end; reflexivity.
Qed.

Lemma perform_all (calls : list action) :
  forall tr, Forall (harmless resolves) calls ->
  perform resolves calls tr = (inr tt, (tr ++ calls)%list).
Proof.
  induction calls as [|a calls IH]; intros tr H.
  - simpl. rewrite app_nil_r. reflexivity.
  - apply Forall_cons in H as [Ha H].
    assert (Hstep : (match a with
                     | AwaitLoggedIn => caught (call resolves a)
                     | _ => call resolves a
                     end) tr = (inr tt, (tr ++ [a])%list)).
    { unfold caught, call. destruct Ha as [->|Ha].
      - destruct (resolves AwaitLoggedIn); reflexivity.
      - destruct a; rewrite Ha; reflexivity. }
    cbn [perform]. unfold bind. rewrite Hstep, IH by exact H.
    rewrite <- app_assoc. reflexivity.
Qed.

Lemma perform_stop (before : list action) (a : action) (after : list action) :
  forall tr, Forall (harmless resolves) before ->
  a <> AwaitLoggedIn -> resolves a = false ->
  perform resolves (before ++ a :: after) tr
  = (inl (DriverError a), (tr ++ before ++ [a])%list).
Proof.
  induction before as [|b before IH]; intros tr H Ha Hr.
  - cbn [app perform]. unfold bind, call.
    destruct a; try congruence; rewrite Hr; reflexivity.
  - apply Forall_cons in H as [Hb H].
    assert (Hstep : (match b with
                     | AwaitLoggedIn => caught (call resolves b)
                     | _ => call resolves b
                     end) tr = (inr tt, (tr ++ [b])%list)).
    { unfold caught, call. destruct Hb as [->|Hb].
      - destruct (resolves AwaitLoggedIn); reflexivity.
      - destruct b; rewrite Hb; reflexivity. }
    change ((b :: before) ++ a :: after)%list with (b :: (before ++ a :: after))%list.
    cbn [perform]. unfold bind. rewrite Hstep, IH by assumption.
    rewrite <- app_assoc. reflexivity.
Qed.

(** With both credentials set, the login makes its eight calls on the
    page in order. The wait for the logged-in state cannot fail it:
    when every other call resolves, the login resolves after all
    eight. The first other call that rejects ends it with the error of
    that call, and no call is made after it. *)
Theorem login_stops_at_first_rejection (env : gmap string string) (tr : list action) :
  ~ unset env "MEDSTAT_EMAIL" -> ~ unset env "MEDSTAT_PASSWORD" ->
  let calls := login_calls (env_or_empty env "MEDSTAT_EMAIL")
                 (env_or_empty env "MEDSTAT_PASSWORD") in
  (Forall (harmless resolves) calls ->
     loginIfNeeded resolves env tr = (inr tt, (tr ++ calls)%list))
  /\ forall before a after,
       calls = (before ++ a :: after)%list ->
       Forall (harmless resolves) before ->
       a <> AwaitLoggedIn -> resolves a = false ->
       loginIfNeeded resolves env tr
       = (inl (DriverError a), (tr ++ before ++ [a])%list).
Proof.
  intros He Hp. cbv zeta.
  rewrite env_or_empty_unset in He, Hp.
  rewrite (loginIfNeeded_perform env tr He Hp).
  split.
  - apply perform_all.
  - intros before a after -> Hbefore Ha Hr. apply perform_stop; assumption.
Qed.

End LoginCalls.

Section LoginRuns.

Import Login.

Lemma login_stops_at_first_rejection_witness :
  loginIfNeeded slow_login env_with_credentials []
  = (inr tt, ([] ++ login_calls "buyer@example.com" "secret")%list)
  /\ loginIfNeeded no_password_box env_with_credentials []
     = (inl (DriverError (Click "Password")),
        ([] ++ [Goto LOGIN_URL; Click "Email Address";
                Fill "Email Address" "buyer@example.com"] ++ [Click "Password"])%list).
Proof.
  assert (Hset : ~ unset env_with_credentials "MEDSTAT_EMAIL"
                 /\ ~ unset env_with_credentials "MEDSTAT_PASSWORD")
    by (split; intros [H|H]; vm_compute in H; discriminate).
  destruct Hset as [He Hp]. split.
  - apply (proj1 (login_stops_at_first_rejection slow_login env_with_credentials []
                    He Hp)).
    unfold login_calls.
    repeat (apply Forall_cons_2; [first [left; reflexivity|right; reflexivity]|]).
    apply Forall_nil_2.
  - apply (proj2 (login_stops_at_first_rejection no_password_box env_with_credentials []
                    He Hp)
             [Goto LOGIN_URL; Click "Email Address"; Fill "Email Address" "buyer@example.com"]
             (Click "Password")
             [Fill "Password" "secret"; Click "Log In"; AwaitLoggedIn; WaitForLoadState]).
    + reflexivity.
    + repeat (apply Forall_cons_2; [right; reflexivity|]). apply Forall_nil_2.
    + discriminate.
    + reflexivity.
Defined.

End LoginRuns.

(** ** The number of the STOCK cell *)

Section StockNumber.

Import ExcelJS Writer.

Lemma shr_1_nonneg (mrs : shr_record) :
  (0 <= shr_m mrs)%Z -> (0 <= shr_m (shr_1 mrs))%Z.
Proof.
  destruct mrs as [m r s]. destruct m as [|p|p]; simpl; intros H; try lia.
  destruct p; simpl; lia.
Qed.

Lemma iter_pos_shr_1_nonneg (p : positive) :
  forall mrs, (0 <= shr_m mrs)%Z -> (0 <= shr_m (SpecFloat.iter_pos shr_1 p mrs))%Z.
Proof.
  induction p as [p IH|p IH|]; intros mrs H; simpl.
  - apply IH, IH, shr_1_nonneg, H.
  - apply IH, IH, H.
  - apply shr_1_nonneg, H.
Qed.

Lemma shr_fexp_nonneg (m e : Z) (l : location) :
  (0 <= m)%Z -> (0 <= shr_m (shr_fexp JS.prec JS.emax m e l).1)%Z.
Proof.
  intros H. unfold shr_fexp, shr.
  assert (H0 : (0 <= shr_m (shr_record_of_loc m l))%Z)
    by (destruct l as [|[]]; exact H).
  destruct (fexp JS.prec JS.emax (Zdigits2 m + e) - e)%Z; simpl; try exact H0.
  apply iter_pos_shr_1_nonneg, H0.
Qed.

Lemma round_nearest_even_nonneg (m : Z) (l : location) :
  (0 <= m)%Z -> (0 <= round_nearest_even m l)%Z.
Proof.
  intros H. destruct l as [|[]]; simpl; try lia. destruct (Z.even m); lia.
Qed.

Lemma binary_round_aux_not_nan (sx : bool) (mx ex : Z) (lx : location) :
  (0 <= mx)%Z -> JS.isNaN (binary_round_aux JS.prec JS.emax sx mx ex lx) = false.
Proof.
  intros H. unfold binary_round_aux.
  pose proof (shr_fexp_nonneg mx ex lx H) as H1.
  destruct (shr_fexp JS.prec JS.emax mx ex lx) as [mrs' e']. simpl in H1.
  pose proof (shr_fexp_nonneg _ e' loc_Exact
                (round_nearest_even_nonneg _ (loc_of_shr_record mrs') H1)) as H2.
  destruct (shr_fexp JS.prec JS.emax _ e' loc_Exact) as [mrs'' e'']. simpl in H2.
  destruct (shr_m mrs'') as [|m|m]; [reflexivity| |lia].
  destruct (Z.leb _ _); reflexivity.
Qed.

Lemma div_core_nonneg (m1 m2 : positive) (e1 e2 : Z) :
  (0 <= (SFdiv_core_binary JS.prec JS.emax (Zpos m1) e1 (Zpos m2) e2).1.1)%Z.
Proof.
  unfold SFdiv_core_binary.
  set (s := (e1 - e2 - _)%Z).
  set (m' := match s with
             | Zpos _ => Z.shiftl (Zpos m1) s
             | Z0 => Zpos m1
             | Zneg _ => 0%Z
             end).
  assert (Hm : (0 <= m')%Z).
  { unfold m'. destruct s; try lia. apply Z.shiftl_nonneg. lia. }
  destruct (Z.div_eucl m' (Zpos m2)) as [q r] eqn:Hd. simpl.
  assert (Hq : q = (m' / Zpos m2)%Z) by (unfold Z.div; rewrite Hd; reflexivity).
  rewrite Hq. apply Z.div_pos; lia.
Qed.

(** A decimal converts to a zero, a finite number or an infinity. *)
Lemma of_decimal_not_nan (neg : bool) (m : Z) (k : nat) :
  JS.isNaN (JS.of_decimal neg m k) = false.
Proof.
  unfold JS.of_decimal. destruct m as [|p|p]; try reflexivity.
  unfold SFdiv.
  pose proof (div_core_nonneg p (Z.to_pos (10 ^ Z.of_nat k)) 0 0) as H.
  destruct (SFdiv_core_binary _ _ _ _ _ _) as [[mz ez] lz]. simpl in H.
  apply binary_round_aux_not_nan, H.
Qed.

Lemma filter_chars_nonempty (p : ascii -> bool) (s : string) :
  JS.truthy (JS.filter_chars p s) = true -> JS.truthy s = true.
Proof. destruct s; [discriminate|reflexivity]. Qed.

Lemma parseInt10_signed (neg : bool) (ds rest : string) :
  ds <> "" ->
  JS.all_chars JS.is_digit ds = true ->
  starts_outside JS.is_digit rest ->
  JS.parseInt10 (sign_text neg ++ ds ++ rest)
  = JS.of_decimal neg (JS.digits_value ds) 0.
Proof.
  intros Hne Hds Hrest. destruct ds as [|c ds]; [congruence|].
  destruct neg.
  - change (sign_text true ++ String c ds ++ rest)
      with (String "-" (String c ds ++ rest)).
    apply parseInt10_negative; [exact Hds|reflexivity|exact Hrest].
  - change (sign_text false ++ String c ds ++ rest) with (String c ds ++ rest).
    apply parseInt10_unsigned; [exact Hds|exact Hrest].
Qed.

(** The STOCK cell holds the first integer of the stock text. When
    what is left of the stock text after all characters but the digits
    and [-] are removed is an optional [-], then digits, then nothing
    or a [-], the cell holds the number of those digits with that sign,
    whatever follows. *)
Theorem stock_reads_leading_integer (s : string) (neg : bool) (ds rest : string) :
  JS.filter_chars is_stock_digit s = sign_text neg ++ ds ++ rest ->
  ds <> "" ->
  JS.all_chars JS.is_digit ds = true ->
  starts_outside JS.is_digit rest ->
  stock_cell (Some s) = Num (JS.of_decimal neg (JS.digits_value ds) 0).
Proof.
  intros Hclean Hne Hds Hrest.
  assert (Ht : JS.truthy (JS.filter_chars is_stock_digit s) = true).
  { rewrite Hclean. destruct neg; [reflexivity|].
    destruct ds; [congruence|reflexivity]. }
  unfold stock_cell, parseStockToNumber.
  rewrite (filter_chars_nonempty _ _ Ht), Ht. cbn [negb].
  rewrite Hclean, (parseInt10_signed neg ds rest Hne Hds Hrest), of_decimal_not_nan.
  reflexivity.
Qed.

Lemma stock_reads_leading_integer_witness :
  stock_cell (Some "Ships in 3-5 days")
  = Num (JS.of_decimal false (JS.digits_value "3") 0).
Proof.
  apply (stock_reads_leading_integer "Ships in 3-5 days" false "3" "-5").
  - reflexivity.
  - discriminate.
  - reflexivity.
  - reflexivity.
Defined.

(** The stock text is kept when no integer is found: when nothing is
    left after all characters but the digits and [-] are removed, or
    what is left starts with a [-] that no digit follows. *)
Theorem stock_without_integer_is_kept (s rest : string) :
  JS.filter_chars is_stock_digit s = ""
  \/ (JS.filter_chars is_stock_digit s = String "-" rest
      /\ starts_outside JS.is_digit rest) ->
  stock_cell (Some s) = Text s.
Proof.
  intros H. unfold stock_cell, parseStockToNumber.
  destruct (JS.truthy s) eqn:Hs; [|reflexivity]. cbn [negb].
  destruct H as [->|[-> Hrest]]; [reflexivity|].
  cbn [JS.truthy negb]. rewrite (parseInt10_sign_only rest Hrest). reflexivity.
Qed.

Lemma stock_without_integer_is_kept_witness :
  stock_cell (Some "Out of stock - call us") = Text "Out of stock - call us".
Proof.
  apply (stock_without_integer_is_kept "Out of stock - call us" "").
  right. split; [reflexivity|exact I].
Defined.

End StockNumber.
